(** * Legal-source discovery and retrieval core

    A shallow embedding of the crawler ([backend/crawler/legal_crawler.py])
    and of the chunking / retrieval pipeline ([backend/rag/vector_store.py]),
    with the properties the design document states about them.

    Conventions of the embedding:
    - a Python [str] is a list of characters, [str]; a character is a
      Unicode code point, a number of [N]. The classes the interpreter
      consults are the Unicode ones: whitespace, line boundaries and
      surrogates are written out in full; the tables that are too large to
      be written out (alphanumeric characters, case mappings) are the
      fields of the class [Py.Unicode], known on the ASCII characters, and
      every theorem holds whatever they are beyond;
    - a Python [int] is a [Z], or a [nat] when it counts; a [float] is a
      binary64 [PrimFloat.float];
    - a [dict] is a [gmap], a [set] is a [gset];
    - a call that may raise yields an [outcome]; [try_except] is the
      [try: ... except Exception: ...] block;
    - the collaborators that live outside the repository (embedding model,
      vector index, HTTP transport, HTML parser, MD5) are Section variables:
      every theorem holds whatever they answer. *)

From Stdlib Require Import Floats.PrimFloat ZArith NArith Ascii String List.
From Stdlib Require Import Sorted Lia.
From Stdlib Require DecimalString DecimalNat.
From stdpp Require Import gmap strings list.

#[local] Set Warnings "-inexact-float,-clear-no-such-hyp".
#[local] Open Scope Z_scope.

(** ** Python values *)

(** A character: a Unicode code point. *)
Definition char := N.

Definition str := list char.

(** A literal of the source, character by character. *)
Definition str_of_string (x : string) : str :=
  map N_of_ascii (list_ascii_of_string x).
Coercion str_of_string : string >-> str.

(** The exceptions the modelled code can meet (all subclasses of
    [Exception]). *)
Inductive exn :=
| TimeoutError
| ConnectionError
| RenderTimeout
| ValueError
| UnicodeEncodeError
| OtherError (msg : str).

Inductive outcome (A : Type) :=
| Ok (a : A)
| Raise (e : exn).
Arguments Ok {A} a.
Arguments Raise {A} e.

#[global] Instance outcome_ret : MRet outcome := fun A a => Ok a.

#[global] Instance outcome_bind : MBind outcome := fun A B k m =>
  match m with
  | Ok a => k a
  | Raise e => Raise e
  end.

(** [try: body / except Exception as e: handler e] *)
Definition try_except {A} (body : outcome A) (handler : exn -> A) : A :=
  match body with
  | Ok a => a
  | Raise e => handler e
  end.

(** [enumerate(l, start)] *)
Fixpoint enumerate {A} (start : nat) (l : list A) : list (nat * A) :=
  match l with
  | [] => []
  | x :: l' => (start, x) :: enumerate (S start) l'
  end.

(** ** Python string operations *)

Module Py.

Definition len (s : str) : Z := Z.of_nat (length s).

(** [bool(s)] of a string: non-empty. *)
Definition nonempty (s : str) : bool :=
  match s with
  | [] => false
  | _ :: _ => true
  end.

Definition in_range (lo hi : N) (c : char) : bool :=
  (N.leb lo c && N.leb c hi)%bool.

(** [c in chars] for one character. *)
Definition among (chars : str) (c : char) : bool := existsb (N.eqb c) chars.

Definition space : char := 32%N.
Definition newline : char := 10%N.

(** [str.isspace] on one character; also the class [\s] of [re] on a [str]
    pattern, and what [strip] and [split] take for whitespace: the
    characters of general category Zs or of bidirectional class WS, B or
    S. *)
Definition isspace (c : char) : bool :=
  (in_range 0x09 0x0d c || in_range 0x1c 0x20 c
   || N.eqb c 0x85 || N.eqb c 0xa0 || N.eqb c 0x1680
   || in_range 0x2000 0x200a c || in_range 0x2028 0x2029 c
   || N.eqb c 0x202f || N.eqb c 0x205f || N.eqb c 0x3000)%bool.

(** The line boundaries of [str.splitlines]. *)
Definition islinebreak (c : char) : bool :=
  (in_range 0x0a 0x0d c || in_range 0x1c 0x1e c
   || N.eqb c 0x85 || in_range 0x2028 0x2029 c)%bool.

(** The code points [str.encode] refuses (UTF-8, strict). *)
Definition issurrogate (c : char) : bool := in_range 0xd800 0xdfff c.

(** [s.encode()] does not raise. *)
Definition encodable (s : str) : bool :=
  forallb (fun c => negb (issurrogate c)) s.

(** *** The ASCII characters *)

Definition isascii (c : char) : bool := N.ltb c 128.

Definition ascii_isupper (c : char) : bool := in_range 65 90 c.
Definition ascii_islower (c : char) : bool := in_range 97 122 c.
Definition ascii_isdigit (c : char) : bool := in_range 48 57 c.

Definition ascii_isalnum (c : char) : bool :=
  (ascii_isupper c || ascii_islower c || ascii_isdigit c)%bool.

Definition ascii_lower (c : char) : char :=
  if ascii_isupper c then (c + 32)%N else c.

Definition ascii_upper (c : char) : char :=
  if ascii_islower c then (c - 32)%N else c.

(** [s.title()] on ASCII: a letter is upper-cased when the character before
    it is not a letter, lower-cased otherwise. *)
Fixpoint ascii_title_go (previous_is_cased : bool) (s : str) : str :=
  match s with
  | [] => []
  | c :: s' =>
      if (ascii_isupper c || ascii_islower c)%bool
      then (if previous_is_cased then ascii_lower c else ascii_upper c)
             :: ascii_title_go true s'
      else c :: ascii_title_go false s'
  end.

Definition ascii_title (s : str) : str := ascii_title_go false s.

(** *** The Unicode character database

    What the interpreter reads in its tables: [isalnum] is [str.isalnum] on
    one character; [lower_full] is the full lower-case mapping of a
    character, one to three characters long; [final_sigma before after]
    tells whether a capital sigma standing between [before] (nearest
    character first) and [after] is in the Final_Sigma context; [title] is
    [str.title]. The laws are what the tables are on the ASCII characters
    and on the surrogates. *)
Class Unicode := {
  isalnum : char -> bool;
  lower_full : char -> str;
  final_sigma : str -> str -> bool;
  title : str -> str;
  isalnum_ascii : forall c, isascii c = true -> isalnum c = ascii_isalnum c;
  isalnum_surrogate : forall c, issurrogate c = true -> isalnum c = false;
  lower_full_ascii :
    forall c, isascii c = true -> lower_full c = [ascii_lower c];
  title_ascii : forall s, forallb isascii s = true -> title s = ascii_title s
}.

Definition capital_sigma : char := 0x3a3%N.
Definition small_sigma : char := 0x3c3%N.
Definition small_final_sigma : char := 0x3c2%N.

Section WithUnicode.

Context {U : Unicode}.

(** The class [\w] of [re] on a [str] pattern: alphanumeric or the
    underscore. *)
Definition isword (c : char) : bool := (isalnum c || N.eqb c 95)%bool.

(** What one character of [s.lower()] becomes: the capital sigma is mapped
    by its context, any other character by the table. *)
Definition lower_piece (before : str) (c : char) (after : str) : str :=
  if N.eqb c capital_sigma
  then [if final_sigma before after then small_final_sigma else small_sigma]
  else lower_full c.

(** The lower-casing of the stretch [s] of a string, [before] being the
    characters before it, nearest first, and [after] those after it. *)
Fixpoint lower_in (before s after : str) : str :=
  match s with
  | [] => []
  | c :: rest =>
      lower_piece before c (rest ++ after) ++ lower_in (c :: before) rest after
  end.

(** [s.lower()] *)
Definition lower (s : str) : str := lower_in [] s [].

End WithUnicode.

Fixpoint startswith (p s : str) : bool :=
  match p, s with
  | [], _ => true
  | _ :: _, [] => false
  | a :: p', b :: s' => (N.eqb a b && startswith p' s')%bool
  end.

(** [p in s] for strings. *)
Fixpoint contains (p s : str) : bool :=
  (startswith p s ||
   match s with
   | [] => false
   | _ :: s' => contains p s'
   end)%bool.

Fixpoint lstrip (s : str) : str :=
  match s with
  | [] => []
  | c :: s' => if isspace c then lstrip s' else s
  end.

Definition rstrip (s : str) : str := rev (lstrip (rev s)).

(** [s.strip()] *)
Definition strip (s : str) : str := rstrip (lstrip s).

(** [s.split()]: the maximal runs of non-whitespace characters; [cur] is the
    run being read, most recent character first. *)
Fixpoint split_go (cur : str) (s : str) : list str :=
  match s with
  | [] => match cur with [] => [] | _ :: _ => [rev cur] end
  | c :: s' =>
      if isspace c
      then match cur with
           | [] => split_go [] s'
           | _ :: _ => rev cur :: split_go [] s'
           end
      else split_go (c :: cur) s'
  end.

Definition split (s : str) : list str := split_go [] s.

(** [sep.join(l)] *)
Fixpoint join (sep : str) (l : list str) : str :=
  match l with
  | [] => []
  | [x] => x
  | x :: l' => x ++ sep ++ join sep l'
  end.

(** [l[start:]] *)
Definition slice_from {A} (start : Z) (l : list A) : list A :=
  let n := Z.of_nat (length l) in
  let lo := if start <? 0 then Z.max 0 (start + n) else Z.min start n in
  skipn (Z.to_nat lo) l.

(** [re.sub(cls + '+', rep, s)] for a character class [cls] and a
    one-character replacement: every maximal run becomes [rep]. *)
Fixpoint sub_runs (cls : char -> bool) (rep : char) (in_run : bool)
    (s : str) : str :=
  match s with
  | [] => []
  | c :: s' =>
      if cls c
      then (if in_run then sub_runs cls rep true s'
            else rep :: sub_runs cls rep true s')
      else c :: sub_runs cls rep false s'
  end.

(** [re.split(cls + '+', s)]: the pieces between the maximal runs of the
    class, empty pieces at the ends included. *)
Fixpoint split_runs (cls : char -> bool) (cur : str) (in_run : bool)
    (s : str) : list str :=
  match s with
  | [] => [rev cur]
  | c :: s' =>
      if cls c
      then (if in_run then split_runs cls [] true s'
            else rev cur :: split_runs cls [] true s')
      else split_runs cls (c :: cur) false s'
  end.

Definition endswith (suffix s : str) : bool :=
  startswith (rev suffix) (rev s).

(** [re.match('.*' + literal + '$', s)] for a literal without newline:
    [.] does not match a newline and [$] also matches before a final
    newline. *)
Definition match_suffix (literal s : str) : bool :=
  let body := match rev s with
              | c :: r => if N.eqb c newline then rev r else s
              | [] => s
              end in
  (endswith literal body
   && forallb (fun c => negb (N.eqb c newline)) body)%bool.

(** [s.split('.')[0]] *)
Fixpoint first_label (s : str) : str :=
  match s with
  | [] => []
  | c :: s' => if among "." c then [] else c :: first_label s'
  end.

(** [s.splitlines()]: a carriage return followed by a line feed is one
    boundary. *)
Fixpoint splitlines_go (cur : str) (s : str) : list str :=
  match s with
  | [] => match cur with [] => [] | _ :: _ => [rev cur] end
  | c :: s' =>
      if islinebreak c
      then rev cur ::
           match s' with
           | d :: s'' =>
               if (N.eqb c 13 && N.eqb d 10)%bool
               then splitlines_go [] s''
               else splitlines_go [] s'
           | [] => splitlines_go [] s'
           end
      else splitlines_go (c :: cur) s'
  end.

Definition splitlines (s : str) : list str := splitlines_go [] s.

(** [s.split("  ")], the separator being two spaces. *)
Fixpoint split_double_space (cur : str) (s : str) : list str :=
  match s with
  | [] => [rev cur]
  | c :: s' =>
      match s' with
      | d :: s'' =>
          if (N.eqb c space && N.eqb d space)%bool
          then rev cur :: split_double_space [] s''
          else split_double_space (c :: cur) s'
      | [] => split_double_space (c :: cur) s'
      end
  end.

(** [p] is a substring of [s]. *)
Definition occurs (p s : str) : Prop := exists l r, s = l ++ p ++ r.

(** [p in s.lower()]: [p] is a substring of the lower-cased [s]. *)
Definition occurs_nocase {U : Unicode} (p s : str) : Prop :=
  occurs p (lower s).

(** [str(n)] for a non-negative integer. *)
Definition str_of_nat (n : nat) : str :=
  str_of_string (DecimalString.NilZero.string_of_uint (Nat.to_uint n)).

End Py.


(** Values stored in the open [metadata] mappings. *)
Inductive MetaValue :=
| MStr (s : str)
| MInt (z : Z)
| MBool (b : bool)
| MNone.

(** ** Data model of [vector_store.py] *)

Record DocumentChunk := mkDocumentChunk {
  id : str;
  content : str;
  metadata : gmap str MetaValue;
  embedding : option (list float);
  source_url : option MetaValue;
  page_number : option MetaValue;
  chunk_index : option MetaValue
}.

Record SearchResult := mkSearchResult {
  chunk : DocumentChunk;
  similarity_score : float;
  rank : nat
}.

(** One entry of [search_response.matches]. *)
Record IndexMatch := mkIndexMatch {
  match_id : str;
  match_score : float;
  match_metadata : gmap str MetaValue
}.

(** ** Retrieval: [VectorStore.search] and
    [RAGPipeline.retrieve_relevant_chunks] *)

Module Retrieval.

Section WithIndex.

(** [EmbeddingGenerator.generate_embedding]: it catches its own errors and
    answers [[]] then. *)
Variable generate_embedding : str -> list float.

(** [index.query(vector, top_k, include_metadata=True, filter)] of the
    external vector database. *)
Variable index_query :
  list float -> Z -> gmap str MetaValue -> outcome (list IndexMatch).

(** [match.metadata.get('content', '')] *)
Definition content_of (md : gmap str MetaValue) : str :=
  match md !! ("content" : str) with
  | Some (MStr s) => s
  | _ => []
  end.

Definition result_of_match (im : nat * IndexMatch) : SearchResult :=
  let (i, m) := im in
  {| chunk := {| id := match_id m;
                 content := content_of (match_metadata m);
                 metadata := match_metadata m;
                 embedding := None;
                 source_url := match_metadata m !! ("source_url" : str);
                 page_number := match_metadata m !! ("page_number" : str);
                 chunk_index := match_metadata m !! ("chunk_index" : str) |};
     similarity_score := match_score m;
     rank := S i |}.

Definition search (query : str) (top_k : Z)
    (filter_dict : gmap str MetaValue) : list SearchResult :=
  try_except
    (let query_embedding := generate_embedding query in
     match query_embedding with
     | [] => Ok []
     | _ :: _ =>
         search_response ← index_query query_embedding top_k filter_dict;
         Ok (map result_of_match (enumerate 0 search_response))
     end)
    (fun _ => []).

(** [if jurisdiction:] holds for a string that is neither [None] nor
    empty. *)
Definition truthy (o : option str) : bool :=
  match o with
  | Some (_ :: _) => true
  | _ => false
  end.

Definition add_filter (key : str) (o : option str)
    (d : gmap str MetaValue) : gmap str MetaValue :=
  match o with
  | Some v => if truthy o then <[key := MStr v]> d else d
  | None => d
  end.

Definition build_filter (jurisdiction document_type : option str)
    : gmap str MetaValue :=
  add_filter "document_type" document_type
    (add_filter "jurisdiction" jurisdiction ∅).

Definition min_score : float := 0.7%float.

(** [r.similarity_score >= min_score] *)
Definition above_floor (r : SearchResult) : bool :=
  PrimFloat.leb min_score (similarity_score r).

Definition retrieve_relevant_chunks (query : str) (top_k : Z)
    (jurisdiction document_type : option str) : list SearchResult :=
  try_except
    (let filter_dict := build_filter jurisdiction document_type in
     let results := search query top_k filter_dict in
     let filtered_results := List.filter above_floor results in
     Ok filtered_results)
    (fun _ => []).

End WithIndex.

End Retrieval.

(** ** Chunking: [DocumentChunker] *)

Module Chunker.

Record DocumentChunker := mkDocumentChunker {
  chunk_size : Z;
  overlap : Z
}.

(** [DocumentChunker()] with its default arguments. *)
Definition default_chunker : DocumentChunker :=
  {| chunk_size := 512; overlap := 50 |}.

(** The characters [.,!?;:()-] of the safelist. *)
Definition ispunct (c : char) : bool := Py.among ".,!?;:()-" c.

(** A character that [[^\w\s.,!?;:()\-]] does not match. *)
Definition safelisted {U : Py.Unicode} (c : char) : bool :=
  (Py.isword c || Py.isspace c || ispunct c)%bool.

(** The class [[.!?]]. *)
Definition isterminator (c : char) : bool := Py.among ".!?" c.

Definition clean_text {U : Py.Unicode} (text : str) : str :=
  let text := Py.sub_runs Py.isspace Py.space false text in
  let text := List.filter safelisted text in
  Py.strip text.

Definition split_into_sentences (text : str) : list str :=
  let sentences := Py.split_runs isterminator [] false text in
  map Py.strip (List.filter (fun s => Py.nonempty (Py.strip s)) sentences).

Definition get_overlap_text (text : str) (overlap_size : Z) : str :=
  let words := Py.split text in
  if Z.of_nat (length words) <=? overlap_size then text
  else Py.join " " (Py.slice_from (- overlap_size) words).


Section WithHash.

Context {U : Py.Unicode}.

(** [hashlib.md5(text.encode()).hexdigest()]. [encode] raises on a lone
    surrogate only; the one text [chunk_text] hands over is the cleaned
    text, which holds none (lemma [cleaned_text_encodable]). *)
Variable md5_hexdigest : str -> str.

Definition generate_chunk_id (text : str) (index : nat) : str :=
  let content_hash := firstn 8 (md5_hexdigest text) in
  ("chunk_" : str) ++ content_hash ++ ("_" : str) ++ Py.str_of_nat index.

Definition make_chunk (text : str) (md : gmap str MetaValue)
    (current_chunk : str) (index : nat) : DocumentChunk :=
  {| id := generate_chunk_id text index;
     content := Py.strip current_chunk;
     metadata := <[("chunk_index" : str) := MInt (Z.of_nat index)]> md;
     embedding := None;
     source_url := None;
     page_number := None;
     chunk_index := Some (MInt (Z.of_nat index)) |}.

(** The variables of the loop of [chunk_text]. *)
Record LoopState := mkLoopState {
  chunks : list DocumentChunk;
  current_chunk : str;
  next_index : nat
}.

(** One iteration of [for sentence in sentences]. *)
Definition step (self : DocumentChunker) (text : str)
    (md : gmap str MetaValue) (st : LoopState) (sentence : str) : LoopState :=
  if ((Py.len (current_chunk st) + Py.len sentence >? chunk_size self)
      && Py.nonempty (current_chunk st))%bool
  then
    let overlap_text := get_overlap_text (current_chunk st) (overlap self) in
    {| chunks := chunks st ++ [make_chunk text md (current_chunk st) (next_index st)];
       current_chunk := overlap_text ++ (" " : str) ++ sentence;
       next_index := S (next_index st) |}
  else
    {| chunks := chunks st;
       current_chunk := if Py.nonempty (current_chunk st)
                        then current_chunk st ++ (" " : str) ++ sentence
                        else sentence;
       next_index := next_index st |}.

Definition initial : LoopState :=
  {| chunks := []; current_chunk := []; next_index := 0 |}.

(** The final flush, [if current_chunk.strip(): ...]. *)
Definition flush (text : str) (md : gmap str MetaValue) (st : LoopState)
    : list DocumentChunk :=
  if Py.nonempty (Py.strip (current_chunk st))
  then chunks st ++ [make_chunk text md (current_chunk st) (next_index st)]
  else chunks st.

Definition chunk_text (self : DocumentChunker) (text : str)
    (md : option (gmap str MetaValue)) : list DocumentChunk :=
  let md := default ∅ md in
  let text := clean_text text in
  let sentences := split_into_sentences text in
  flush text md (fold_left (step self text md) sentences initial).

End WithHash.




(** A character of a text without sentence content. *)
Definition blank (c : char) : Prop :=
  Py.isspace c = true \/ isterminator c = true.

End Chunker.


(** ** Crawling: [LegalCrawler] *)

Module Crawler.

#[local] Open Scope nat_scope.

Record LegalSource := mkLegalSource {
  url : str;
  title : str;
  content : str;
  source_type : str;
  jurisdiction : str;
  authority_level : str;
  last_crawled : Z;
  content_hash : str;
  metadata : gmap str MetaValue
}.

(** What the code reads of [urlparse(url)]. *)
Record ParseResult := mkParseResult {
  netloc : str;
  path : str
}.

(** What the code reads of a parsed page: [visible_text] is [get_text()]
    once the script, style, nav, footer, header and aside elements and the
    elements of a boilerplate class are decomposed. *)
Record Soup := mkSoup {
  visible_text : str;
  title_text : option str;
  has_form : bool;
  has_table : bool;
  anchors : nat;
  last_modified : MetaValue;
  hrefs : list str
}.

Record HttpResponse := mkHttpResponse {
  status : Z;
  text : outcome str
}.

(** [self.legal_domains]: each pattern ['.*\.gov$'] is kept as the literal
    it ends with. *)
Definition legal_domains : list (str * list str) :=
  [ ("government" : str,
     [ ".gov" : str; ".ca.gov" : str; ".state.us" : str; ".courts.gov" : str;
       ".ftb.ca.gov" : str; ".sos.ca.gov" : str ]);
    ("court" : str,
     [ ".courts.gov" : str; ".court.gov" : str; ".uscourts.gov" : str;
       ".ca.courts.gov" : str ]);
    ("legal_portal" : str,
     [ ".justia.com" : str; ".findlaw.com" : str; ".law.cornell.edu" : str;
       ".nolo.com" : str ]) ].

Definition legal_keywords : list str :=
  [ "incorporation" : str; "llc" : str; "corporation" : str;
    "partnership" : str; "business license" : str;
    "filing" : str; "registration" : str; "compliance" : str;
    "regulation" : str; "statute" : str;
    "court" : str; "litigation" : str; "lawsuit" : str; "contract" : str;
    "agreement" : str;
    "tax" : str; "irs" : str; "ftb" : str; "franchise tax" : str;
    "employment law" : str;
    "intellectual property" : str; "patent" : str; "trademark" : str;
    "copyright" : str ].

Definition max_urls : nat := 100.

(** The first source type one of whose patterns matches the domain. *)
Fixpoint first_domain_type (domains : list (str * list str)) (domain : str)
    : option str :=
  match domains with
  | [] => None
  | (source_type, patterns) :: rest =>
      if existsb (fun pattern => Py.match_suffix pattern domain) patterns
      then Some source_type
      else first_domain_type rest domain
  end.

Definition determine_authority_level (url source_type : str) : str :=
  if decide (source_type = ("government" : str)) then "high" : str
  else if decide (source_type = ("court" : str)) then "high" : str
  else if decide (source_type = ("legal_portal" : str)) then "medium" : str
  else "low" : str.

(** The second block of [extract_jurisdiction], "Extract from content". *)
Definition jurisdiction_from_content {U : Py.Unicode} (content : str) : str :=
  let content_lower := Py.lower content in
  if Py.contains "california" content_lower then "California, USA" : str
  else if Py.contains "new york" content_lower then "New York, USA" : str
  else if Py.contains "texas" content_lower then "Texas, USA" : str
  else "Unknown" : str.

(** The branches of [extract_jurisdiction] once the domain is known. *)
Definition jurisdiction_of {U : Py.Unicode} (domain content : str) : str :=
  if Py.contains ".ca.gov" domain then "California, USA" : str
  else if Py.contains ".state.us" domain then
    let state := Py.first_label domain in
    Py.title state ++ (", USA" : str)
  else if Py.contains ".gov" domain then "Federal, USA" : str
  else jurisdiction_from_content content.

Definition keyword_matches {U : Py.Unicode} (content : str) : nat :=
  let content_lower := Py.lower content in
  length (List.filter (fun keyword => Py.contains keyword content_lower)
            legal_keywords).

Definition is_legal_content {U : Py.Unicode} (content : str) : bool :=
  3 <=? keyword_matches content.

(** At least three distinct keywords of the vocabulary occur in the
    lower-cased content. *)
Definition three_keywords_occur {U : Py.Unicode} (content : str) : Prop :=
  exists k1 k2 k3,
    In k1 legal_keywords /\ In k2 legal_keywords /\ In k3 legal_keywords
    /\ k1 <> k2 /\ k1 <> k3 /\ k2 <> k3
    /\ Py.occurs_nocase k1 content /\ Py.occurs_nocase k2 content
    /\ Py.occurs_nocase k3 content.

(** The whitespace clean-up at the end of [clean_content]. *)
Definition join_phrases (text : str) : str :=
  let lines := map Py.strip (Py.splitlines text) in
  let chunks :=
    flat_map (fun line => map Py.strip (Py.split_double_space [] line)) lines in
  Py.join " " (List.filter Py.nonempty chunks).

(** The variables of [discover_legal_sources] and [self.crawled_urls];
    [dispatched] and [enqueued] are not in the code: they record, in order,
    the URLs handed to [crawl_url] and the URLs put on [urls_to_crawl]
    (the seeds included). *)
Record CrawlState := mkCrawlState {
  discovered_sources : list LegalSource;
  urls_to_crawl : list str;
  crawled_count : nat;
  crawled_urls : gset str;
  dispatched : list str;
  enqueued : list str
}.

(** The loop [for new_url in new_urls]. *)
Fixpoint enqueue_links (new_urls : list str) (st : CrawlState) : CrawlState :=
  match new_urls with
  | [] => st
  | new_url :: rest =>
      if (bool_decide (new_url ∉ crawled_urls st)
          && (length (urls_to_crawl st) <? 50))%bool
      then enqueue_links rest
             {| discovered_sources := discovered_sources st;
                urls_to_crawl := urls_to_crawl st ++ [new_url];
                crawled_count := crawled_count st;
                crawled_urls := crawled_urls st ∪ {[ new_url ]};
                dispatched := dispatched st;
                enqueued := enqueued st ++ [new_url] |}
      else enqueue_links rest st
  end.

(** What a stretch of the loop body does to the variables: it appends
    [sources] to the sources found and [added] to the queue, [added] being
    distinct addresses that were not in [crawled_urls]. *)
Definition grows (st st' : CrawlState) (sources : list LegalSource)
    (added : list str) : Prop :=
  discovered_sources st' = discovered_sources st ++ sources
  /\ crawled_count st' = crawled_count st + length sources
  /\ dispatched st' = dispatched st
  /\ urls_to_crawl st' = urls_to_crawl st ++ added
  /\ enqueued st' = enqueued st ++ added
  /\ crawled_urls st' = crawled_urls st ∪ list_to_set added
  /\ List.NoDup added
  /\ (forall u, In u added -> u ∉ crawled_urls st)
  /\ length (urls_to_crawl st') <= Nat.max (length (urls_to_crawl st)) 50.

(** The sources among the results of a batch. *)
Definition accepted (results : list (outcome (option LegalSource)))
    : list LegalSource :=
  omap (fun result => match result with Ok found => found | Raise _ => None end)
       results.

(** What holds of the variables between two turns of the loop, for a run
    from [seed_urls] entered with [visited] as [self.crawled_urls];
    [crawl_task] is [crawl_url] on a numbered fetch. *)
Definition crawl_invariant (crawl_task : nat * str -> option LegalSource)
    (seed_urls : list str) (visited : gset str) (st : CrawlState) : Prop :=
  discovered_sources st = omap crawl_task (enumerate 0 (dispatched st))
  /\ crawled_count st = length (discovered_sources st)
  /\ crawled_count st <= max_urls + 9
  /\ enqueued st = dispatched st ++ urls_to_crawl st
  /\ exists found,
       enqueued st = seed_urls ++ found
       /\ List.NoDup found
       /\ (forall u, In u found -> u ∉ visited)
       /\ crawled_urls st = visited ∪ list_to_set found.

Section WithWorld.

Context {U : Py.Unicode}.

(** The collaborators. The transport answers are indexed by the number of
    fetches made before, so that a page may answer differently each time. *)
Variable urlparse : str -> outcome ParseResult.
Variable BeautifulSoup : str -> outcome Soup.
Variable urljoin : str -> str -> outcome str.
Variable md5_hexdigest : str -> str.
Variable now : Z.
Variable session_get : nat -> str -> outcome HttpResponse.
Variable playwright_content : nat -> str -> outcome str.

Definition is_legal_domain (url : str) : outcome (option str) :=
  parsed ← urlparse url;
  let domain := Py.lower (netloc parsed) in
  Ok (first_domain_type legal_domains domain).

Definition extract_jurisdiction (url content : str) : outcome str :=
  parsed ← urlparse url;
  let domain := Py.lower (netloc parsed) in
  Ok (jurisdiction_of domain content).

Definition clean_content (html : str) : outcome str :=
  soup ← BeautifulSoup html;
  Ok (join_phrases (visible_text soup)).

(** [hashlib.md5(content.encode()).hexdigest()]: [encode] raises on a lone
    surrogate. *)
Definition content_digest (content : str) : outcome str :=
  if Py.encodable content then Ok (md5_hexdigest content)
  else Raise UnicodeEncodeError.

Definition process_html (url html : str) : option LegalSource :=
  try_except
    (content ← clean_content html;
     if negb (is_legal_content content) then Ok None
     else
       soup ← BeautifulSoup html;
       title_text ← match title_text soup with
                    | Some t => Ok (Py.strip t)
                    | None => parsed ← urlparse url; Ok (path parsed)
                    end;
       legal ← is_legal_domain url;
       let source_type := default ("other" : str) legal in
       let authority_level := determine_authority_level url source_type in
       jurisdiction ← extract_jurisdiction url content;
       content_hash ← content_digest content;
       let metadata : gmap str MetaValue :=
         <[("word_count" : str) := MInt (Z.of_nat (length (Py.split content)))]>
         (<[("has_forms" : str) := MBool (has_form soup)]>
         (<[("has_tables" : str) := MBool (has_table soup)]>
         (<[("has_links" : str) := MInt (Z.of_nat (anchors soup))]>
         (<[("last_modified" : str) := last_modified soup]> ∅)))) in
       Ok (Some {| url := url;
                   title := title_text;
                   content := content;
                   source_type := source_type;
                   jurisdiction := jurisdiction;
                   authority_level := authority_level;
                   last_crawled := now;
                   content_hash := content_hash;
                   metadata := metadata |}))
    (fun _ => None).

Definition crawl_with_aiohttp (tick : nat) (url : str) : option LegalSource :=
  try_except
    (response ← session_get tick url;
     if negb (status response =? 200)%Z then Ok None
     else
       html ← text response;
       Ok (process_html url html))
    (fun _ => None).

Definition crawl_with_playwright (tick : nat) (url : str)
    : option LegalSource :=
  try_except
    (html ← playwright_content tick url;
     Ok (process_html url html))
    (fun _ => None).

(** The bookkeeping of [self.rate_limits] only delays the fetch and is left
    out; [urlparse(url).netloc] is kept because it may raise. *)
Definition crawl_url (tick : nat) (url : str) (use_playwright : bool)
    : option LegalSource :=
  try_except
    (parsed ← urlparse url;
     if use_playwright then Ok (crawl_with_playwright tick url)
     else Ok (crawl_with_aiohttp tick url))
    (fun _ => None).

(** The links of [soup.find_all('a', href=True)] that are on a legal domain,
    joined with the base URL. *)
Fixpoint legal_links (base_url : str) (links : list str)
    : outcome (list str) :=
  match links with
  | [] => Ok []
  | href :: rest =>
      full_url ← urljoin base_url href;
      legal ← is_legal_domain full_url;
      kept ← legal_links base_url rest;
      Ok (if bool_decide (is_Some legal) then full_url :: kept else kept)
  end.

Definition extract_links_from_content (content base_url : str)
    : outcome (list str) :=
  soup ← BeautifulSoup content;
  legal_links base_url (hrefs soup).

(** [asyncio.gather] with [return_exceptions=True]: one entry per URL of
    the batch, in order, a returned value or the exception raised. *)
Definition gather (first_tick : nat) (batch : list str)
    : list (outcome (option LegalSource)) :=
  map (fun task => Ok (crawl_url (first_tick + fst task) (snd task) false))
      (enumerate 0 batch).

(** The body of [for result in results]. *)
Definition handle_result (st : CrawlState)
    (result : outcome (option LegalSource)) : outcome CrawlState :=
  match result with
  | Ok (Some source) =>
      let st1 :=
        {| discovered_sources := discovered_sources st ++ [source];
           urls_to_crawl := urls_to_crawl st;
           crawled_count := crawled_count st + 1;
           crawled_urls := crawled_urls st;
           dispatched := dispatched st;
           enqueued := enqueued st |} in
      if crawled_count st1 <? max_urls
      then
        new_urls ← extract_links_from_content (content source) (url source);
        Ok (enqueue_links new_urls st1)
      else Ok st1
  | _ => Ok st
  end.

Fixpoint handle_results (st : CrawlState)
    (results : list (outcome (option LegalSource))) : outcome CrawlState :=
  match results with
  | [] => Ok st
  | result :: rest =>
      st' ← handle_result st result;
      handle_results st' rest
  end.

(** One turn of the [while] loop. *)
Definition run_batch (st : CrawlState) : outcome CrawlState :=
  let current_batch := firstn 10 (urls_to_crawl st) in
  let results := gather (length (dispatched st)) current_batch in
  handle_results
    {| discovered_sources := discovered_sources st;
       urls_to_crawl := skipn 10 (urls_to_crawl st);
       crawled_count := crawled_count st;
       crawled_urls := crawled_urls st;
       dispatched := dispatched st ++ current_batch;
       enqueued := enqueued st |}
    results.

(** [while urls_to_crawl and crawled_count < max_urls] *)
Definition loop_condition (st : CrawlState) : bool :=
  (match urls_to_crawl st with [] => false | _ :: _ => true end
   && (crawled_count st <? max_urls))%bool.

(** The [while] loop, run for at most [fuel] turns; [None] when the fuel
    does not suffice. *)
Fixpoint drain (fuel : nat) (st : CrawlState) : option (outcome CrawlState) :=
  if loop_condition st
  then match fuel with
       | O => None
       | S fuel' =>
           match run_batch st with
           | Ok st' => drain fuel' st'
           | Raise e => Some (Raise e)
           end
       end
  else Some (Ok st).

(** A number of turns that always suffices. *)
Definition turns (st : CrawlState) : nat :=
  S (51 * (max_urls - crawled_count st) + length (urls_to_crawl st)).

Definition seeded (seed_urls : list str) (visited : gset str) : CrawlState :=
  {| discovered_sources := [];
     urls_to_crawl := seed_urls;
     crawled_count := 0;
     crawled_urls := visited;
     dispatched := [];
     enqueued := seed_urls |}.

(** The run of [discover_legal_sources] from [seed_urls], [visited] being
    [self.crawled_urls] on entry: the final state, or the exception that
    ends the run. *)
Definition discover_run (seed_urls : list str) (visited : gset str)
    : option (outcome CrawlState) :=
  drain (turns (seeded seed_urls visited)) (seeded seed_urls visited).

Definition discover_legal_sources (seed_urls : list str) (visited : gset str)
    : option (outcome (list LegalSource)) :=
  match discover_run seed_urls visited with
  | Some (Ok st) => Some (Ok (discovered_sources st))
  | Some (Raise e) => Some (Raise e)
  | None => None
  end.

End WithWorld.

End Crawler.

(** ** Inputs on which the definitions are run *)

Module Demo.

(** The character database cut down to ASCII: no letter, no digit and no
    case mapping beyond it. It answers as the interpreter does on the ASCII
    texts the definitions are run on below. *)
Definition demo_unicode : Py.Unicode.
Proof.
  refine {| Py.isalnum := Py.ascii_isalnum;
            Py.lower_full := fun c => [Py.ascii_lower c];
            Py.final_sigma := fun _ _ => false;
            Py.title := Py.ascii_title |}.
  - reflexivity.
  - intros c H. unfold Py.issurrogate, Py.in_range in H.
    apply andb_true_iff in H as [H _]. apply N.leb_le in H.
    unfold Py.ascii_isalnum, Py.ascii_isupper, Py.ascii_islower,
      Py.ascii_isdigit, Py.in_range.
    rewrite !orb_false_iff, !andb_false_iff, !N.leb_gt. lia.
  - reflexivity.
  - reflexivity.
Defined.

#[local] Existing Instance demo_unicode.

(** A stand-in for MD5 (the real digest is outside the model): 32
    characters that depend on the length of the text only. *)
Definition demo_md5 (text : str) : str :=
  firstn 32 (Py.str_of_nat (length text) ++ repeat 48%N 32).

(** Whitespace and sentence terminators only. *)
Definition blank_page : str := " ..  ! ?...   ".

(** Fifteen sentences of three long words each. *)
Definition long_words : str :=
  concat (repeat ("incorporation registration compliance. " : str) 15).

(** [urlparse] on the URLs used below: the authority follows the first
    [//] and runs up to the first [/], [?] or [#]; an authority with an
    unmatched square bracket raises [ValueError] (Invalid IPv6 URL). *)
Fixpoint after_slashes (url : str) : option str :=
  match url with
  | [] => None
  | c :: rest =>
      if Py.startswith "//" url then Some (skipn 1 rest)
      else after_slashes rest
  end.

Definition ends_authority (c : char) : bool := Py.among "/?#" c.

Fixpoint take_until (stop : char -> bool) (s : str) : str :=
  match s with
  | [] => []
  | c :: s' => if stop c then [] else c :: take_until stop s'
  end.

Fixpoint drop_until (stop : char -> bool) (s : str) : str :=
  match s with
  | [] => []
  | c :: s' => if stop c then s else drop_until stop s'
  end.

Definition demo_urlparse (url : str) : outcome Crawler.ParseResult :=
  match after_slashes url with
  | None => Ok {| Crawler.netloc := []; Crawler.path := url |}
  | Some rest =>
      let netloc := take_until ends_authority rest in
      if xorb (Py.contains "[" netloc) (Py.contains "]" netloc)
      then Raise ValueError
      else Ok {| Crawler.netloc := netloc;
                 Crawler.path :=
                   take_until (Py.among "?#")
                     (drop_until ends_authority rest) |}
  end.

(** A page whose text carries an escaped anchor to its own address: the
    parser yields the anchor as text, and yields the link when it is given
    that text. Any other input is taken as plain text without markup. *)
Definition self_page_html : str :=
  "<p>llc tax court &lt;a href='https://a.gov/'&gt;home&lt;/a&gt;</p>".

Definition self_page_text : str :=
  "llc tax court <a href='https://a.gov/'>home</a>".

Definition plain_soup (visible : str) (links : list str) : Crawler.Soup :=
  {| Crawler.visible_text := visible;
     Crawler.title_text := None;
     Crawler.has_form := false;
     Crawler.has_table := false;
     Crawler.anchors := length links;
     Crawler.last_modified := MNone;
     Crawler.hrefs := links |}.

Definition demo_soup (html : str) : outcome Crawler.Soup :=
  if decide (html = self_page_html) then Ok (plain_soup self_page_text [])
  else if decide (html = self_page_text)
       then Ok (plain_soup "llc tax court home" [("https://a.gov/" : str)])
       else Ok (plain_soup html []).

(** [urljoin] on an absolute reference. *)
Definition demo_urljoin (base href : str) : outcome str := Ok href.

(** Every address answers 200 with the same page, but [missing], which
    answers 404. *)
Definition demo_get (page missing : str) (tick : nat) (url : str)
    : outcome Crawler.HttpResponse :=
  if decide (url = missing)
  then Ok {| Crawler.status := 404; Crawler.text := Ok [] |}
  else Ok {| Crawler.status := 200; Crawler.text := Ok page |}.

Definition demo_playwright (tick : nat) (url : str) : outcome str :=
  Raise RenderTimeout.

Definition demo_process_html : str -> str -> option Crawler.LegalSource :=
  Crawler.process_html demo_urlparse demo_soup demo_md5 0.

Definition demo_discover (page missing : str) (seeds : list str)
    : option (outcome Crawler.CrawlState) :=
  Crawler.discover_run demo_urlparse demo_soup demo_urljoin demo_md5 0
    (demo_get page missing) demo_playwright seeds ∅.

(** 110 seed addresses, [https://s0.gov/] to [https://s109.gov/]. *)
Definition many_seeds : list str :=
  map (fun i => ("https://s" : str) ++ Py.str_of_nat i ++ (".gov/" : str))
      (seq 0 110).

(** A small index used to run the definitions: three matches, the second
    one under the floor. *)
Definition demo_embedding (q : str) : list float := [1%float].

Definition demo_matches : list IndexMatch :=
  [ {| match_id := "chunk_a_0"; match_score := 0.91%float; match_metadata := ∅ |};
    {| match_id := "chunk_a_1"; match_score := 0.42%float; match_metadata := ∅ |};
    {| match_id := "chunk_b_0"; match_score := 0.7%float; match_metadata := ∅ |} ].

Definition demo_query (v : list float) (k : Z) (f : gmap str MetaValue)
    : outcome (list IndexMatch) := Ok demo_matches.

End Demo.

(** ** Shapes of texts *)

Module Text.

(** The text does not begin with a whitespace character. *)
Definition clean_start (s : str) : Prop :=
  match s with
  | [] => True
  | c :: _ => Py.isspace c = false
  end.

(** Neither end of the text is a whitespace character. *)
Definition clean_ends (s : str) : Prop :=
  clean_start s /\ clean_start (rev s).

(** A word, as [str.split] returns them: not empty, no whitespace. *)
Definition word (w : str) : Prop :=
  w <> [] /\ Forall (fun c => Py.isspace c = false) w.

(** Some character of the text is not whitespace. *)
Definition has_text (s : str) : Prop :=
  Exists (fun c => Py.isspace c = false) s.

(** One of the two small sigmas a capital sigma is lower-cased to. *)
Definition issigma (c : char) : bool :=
  (N.eqb c Py.small_sigma || N.eqb c Py.small_final_sigma)%bool.

(** The same character, or two small sigmas. *)
Definition alike (x y : char) : Prop :=
  x = y \/ (issigma x = true /\ issigma y = true).

End Text.

(** ** Ingestion: [VectorStore.add_chunks] and
    [RAGPipeline.process_document] *)

Module Ingest.

(** One entry of the list handed to [index.upsert]. *)
Record Vector := mkVector {
  vector_id : str;
  values : list float;
  vector_metadata : gmap str MetaValue
}.

(** A field that may be [None], as a metadata value. *)
Definition or_none (field : option MetaValue) : MetaValue :=
  default MNone field.

(** The dictionary [{'content': ..., 'source_url': ..., 'page_number': ...,
    'chunk_index': ..., **chunk.metadata}]: the keys of [chunk.metadata]
    come last and win. *)
Definition vector_metadata_of (c : DocumentChunk) : gmap str MetaValue :=
  metadata c ∪
  (<[("content" : str) := MStr (content c)]>
  (<[("source_url" : str) := or_none (source_url c)]>
  (<[("page_number" : str) := or_none (page_number c)]>
  (<[("chunk_index" : str) := or_none (chunk_index c)]> ∅)))).

(** The loop over [zip(chunks, embeddings)]: a chunk whose embedding is
    empty is left out. *)
Fixpoint vectors_of (chunks : list DocumentChunk)
    (embeddings : list (list float)) : list Vector :=
  match chunks, embeddings with
  | c :: chunks', e :: embeddings' =>
      match e with
      | [] => vectors_of chunks' embeddings'
      | _ :: _ =>
          {| vector_id := id c; values := e;
             vector_metadata := vector_metadata_of c |}
          :: vectors_of chunks' embeddings'
      end
  | _, _ => []
  end.

(** What the index answers for a stored vector, with a score. *)
Definition match_of (v : Vector) (score : float) : IndexMatch :=
  {| match_id := vector_id v; match_score := score;
     match_metadata := vector_metadata v |}.

Section WithStore.

Context {U : Py.Unicode}.

(** [EmbeddingGenerator.generate_embeddings_batch]: it catches its own
    errors and answers [[]] then. *)
Variable generate_embeddings_batch : list str -> list (list float).

(** [index.upsert(vectors=...)] of the external vector database. *)
Variable upsert : list Vector -> outcome unit.

Variable md5_hexdigest : str -> str.

Definition add_chunks (chunks : list DocumentChunk) : bool :=
  try_except
    (let texts := map content chunks in
     let embeddings := generate_embeddings_batch texts in
     let vectors := vectors_of chunks embeddings in
     match vectors with
     | [] => Ok false
     | _ :: _ => _ ← upsert vectors; Ok true
     end)
    (fun _ => false).

(** [self.chunker] is [DocumentChunker()], with the default sizes. *)
Definition process_document (document_content : str)
    (md : option (gmap str MetaValue)) : bool :=
  try_except
    (let chunks :=
       Chunker.chunk_text md5_hexdigest Chunker.default_chunker
         document_content md in
     let success := add_chunks chunks in
     Ok success)
    (fun _ => false).

End WithStore.

End Ingest.

(** ** [LegalCrawler.crawl_legal_sources] and its caller *)

Module CrawlAll.
Import Crawler.

#[local] Open Scope nat_scope.

(** The dictionary [seed_urls] of [crawl_legal_sources]. *)
Definition seed_urls : list (str * list str) :=
  [ ("California" : str,
     [ "https://sos.ca.gov/business/" : str; "https://www.ftb.ca.gov/" : str;
       "https://www.dol.ca.gov/" : str;
       "https://bizfileonline.sos.ca.gov/" : str ]);
    ("New York" : str,
     [ "https://www.dos.ny.gov/" : str; "https://www.tax.ny.gov/" : str;
       "https://www.labor.ny.gov/" : str ]);
    ("Texas" : str,
     [ "https://mycpa.cpa.state.tx.us/" : str;
       "https://comptroller.texas.gov/" : str;
       "https://www.twc.texas.gov/" : str ]);
    ("Federal" : str,
     [ "https://www.irs.gov/" : str; "https://www.sba.gov/" : str;
       "https://www.sec.gov/" : str; "https://www.uspto.gov/" : str ]) ].

Definition default_jurisdictions : list str :=
  [ "California" : str; "New York" : str; "Texas" : str; "Federal" : str ].

(** [seed_urls[jurisdiction]] when [jurisdiction in seed_urls]. *)
Fixpoint lookup_seeds (table : list (str * list str)) (jurisdiction : str)
    : option (list str) :=
  match table with
  | [] => None
  | (name, urls) :: rest =>
      if decide (name = jurisdiction) then Some urls
      else lookup_seeds rest jurisdiction
  end.

Section WithWorld.

Context {U : Py.Unicode}.

Variable urlparse : str -> outcome ParseResult.
Variable BeautifulSoup : str -> outcome Soup.
Variable urljoin : str -> str -> outcome str.
Variable md5_hexdigest : str -> str.
Variable now : Z.

(** The transport, by the number of the call of [discover_legal_sources]
    and by the number of the fetch within it. *)
Variable session_get : nat -> nat -> str -> outcome HttpResponse.
Variable playwright_content : nat -> nat -> str -> outcome str.

(** The loop [for jurisdiction in jurisdictions]: [all_sources], the set
    [self.crawled_urls] and the number of runs made so far are carried
    along; [None] stands for a run that does not end, a raised exception
    ends the loop. *)
Fixpoint crawl_each (jurisdictions : list str)
    (all_sources : list LegalSource) (visited : gset str) (runs : nat)
    : option (outcome (list LegalSource * gset str)) :=
  match jurisdictions with
  | [] => Some (Ok (all_sources, visited))
  | jurisdiction :: rest =>
      match lookup_seeds seed_urls jurisdiction with
      | None => crawl_each rest all_sources visited runs
      | Some seeds =>
          match discover_run urlparse BeautifulSoup urljoin md5_hexdigest now
                  (session_get runs) (playwright_content runs) seeds visited
          with
          | None => None
          | Some (Raise e) => Some (Raise e)
          | Some (Ok st) =>
              crawl_each rest (all_sources ++ discovered_sources st)
                (crawled_urls st) (S runs)
          end
      end
  end.

Definition crawl_legal_sources (jurisdictions : option (list str))
    (visited : gset str) : option (outcome (list LegalSource * gset str)) :=
  let jurisdictions := default default_jurisdictions jurisdictions in
  crawl_each jurisdictions [] visited 0.

(** [AIService._crawl_legal_sources]: a fresh crawler, the one jurisdiction
    asked for or the four defaults, and [[]] on any exception. *)
Definition ai_crawl_legal_sources (jurisdiction : option str)
    : option (list LegalSource) :=
  let jurisdictions :=
    match jurisdiction with
    | Some (c :: j) => [c :: j]
    | _ => default_jurisdictions
    end in
  match crawl_legal_sources (Some jurisdictions) ∅ with
  | None => None
  | Some (Ok (sources, _)) => Some sources
  | Some (Raise _) => Some []
  end.

End WithWorld.

End CrawlAll.

(** ** Facts on the string operations *)

Module PyFacts.
Import Py.

Lemma startswith_spec (p s : str) :
  startswith p s = true <-> exists r, s = p ++ r.
Proof.
  revert s; induction p as [|a p IH]; intros [|b s]; simpl.
  - split; [intros _; now exists []|reflexivity].
  - split; [intros _; now exists (b :: s)|reflexivity].
  - split; [discriminate|intros [r H]; discriminate].
  - rewrite andb_true_iff, N.eqb_eq, IH. split.
    + intros [-> [r ->]]. now exists r.
    + intros [r H]. injection H as -> ->. split; [reflexivity|now exists r].
Qed.

Lemma contains_spec (p s : str) : contains p s = true <-> occurs p s.
Proof.
  unfold occurs. induction s as [|c s IH]; simpl.
  - rewrite orb_false_r, startswith_spec. split.
    + intros [r H]. now exists [], r.
    + intros (l & r & H). destruct l; [now exists r|discriminate].
  - rewrite orb_true_iff, startswith_spec, IH. split.
    + intros [[r H] | (l & r & H)].
      * now exists [], r.
      * exists (c :: l), r. simpl. now rewrite H.
    + intros (l & r & H). destruct l as [|x l]; simpl in H.
      * left. now exists r.
      * injection H as -> H. right. now exists l, r.
Qed.

Lemma contains_false (p s : str) : contains p s = false <-> ~ occurs p s.
Proof.
  rewrite <- contains_spec. destruct (contains p s); split; intros H;
    try reflexivity; try discriminate; now contradict H.
Qed.

Lemma lstrip_blank (s : str) :
  Forall (fun c => isspace c = true) s -> lstrip s = [].
Proof.
  induction 1 as [|c s Hc _ IH]; simpl; [reflexivity|now rewrite Hc].
Qed.

Lemma strip_blank (s : str) :
  Forall (fun c => isspace c = true) s -> strip s = [].
Proof.
  intros H. unfold strip, rstrip. now rewrite (lstrip_blank s H).
Qed.

Lemma Forall_lstrip (P : char -> Prop) (s : str) :
  Forall P s -> Forall P (lstrip s).
Proof.
  induction 1 as [|c s Hc Hs IH]; simpl; [constructor|].
  destruct (isspace c); [exact IH|now constructor].
Qed.

Lemma Forall_strip (P : char -> Prop) (s : str) :
  Forall P s -> Forall P (strip s).
Proof.
  intros H. unfold strip, rstrip.
  apply List.Forall_rev, Forall_lstrip, List.Forall_rev, Forall_lstrip, H.
Qed.



Lemma length_enumerate {A} (l : list A) (n : nat) :
  length (enumerate n l) = length l.
Proof.
  revert n; induction l as [|x l IH]; intros n; simpl; [reflexivity|].
  now rewrite IH.
Qed.

Lemma enumerate_app {A} (l1 l2 : list A) (n : nat) :
  enumerate n (l1 ++ l2)
  = enumerate n l1 ++ enumerate (n + length l1)%nat l2.
Proof.
  revert n; induction l1 as [|x l1 IH]; intros n; simpl.
  - now rewrite Nat.add_0_r.
  - now rewrite IH, Nat.add_succ_r.
Qed.

Lemma strip_nonempty (s : str) : nonempty (strip s) = true -> s <> [].
Proof. intros H ->. discriminate H. Qed.

Lemma nonempty_true (s : str) : nonempty s = true <-> s <> [].
Proof. destruct s; simpl; split; congruence. Qed.

End PyFacts.

(** ** More facts on the string operations *)

Module TextFacts.
Import Py Text PyFacts.

Lemma lstrip_clean_start (s : str) : clean_start (lstrip s).
Proof.
  induction s as [|c s IH]; simpl; [exact I|].
  destruct (isspace c) eqn:Hc; [exact IH|exact Hc].
Qed.

(** What [lstrip] removes is a run of whitespace. *)
Lemma lstrip_split (s : str) :
  exists spaces,
    s = spaces ++ lstrip s /\ Forall (fun c => isspace c = true) spaces.
Proof.
  induction s as [|c s (spaces & Hs & Hall)]; simpl.
  - exists []. split; [reflexivity|constructor].
  - destruct (isspace c) eqn:Hc.
    + exists (c :: spaces). split; [simpl; now rewrite <- Hs|now constructor].
    + exists []. split; [reflexivity|constructor].
Qed.

Lemma rstrip_clean_start (s : str) : clean_start s -> clean_start (rstrip s).
Proof.
  intros Hs. unfold rstrip.
  destruct (lstrip_split (rev s)) as (spaces & Hsplit & _).
  apply (f_equal (@rev char)) in Hsplit.
  rewrite rev_involutive, rev_app_distr in Hsplit.
  destruct (rev (lstrip (rev s))) as [|c rest]; [exact I|].
  rewrite Hsplit in Hs. exact Hs.
Qed.

Lemma strip_clean_ends (s : str) : clean_ends (strip s).
Proof.
  unfold clean_ends, strip. split.
  - apply rstrip_clean_start, lstrip_clean_start.
  - unfold rstrip. rewrite rev_involutive. apply lstrip_clean_start.
Qed.

Lemma has_text_lstrip (s : str) : has_text s -> has_text (lstrip s).
Proof.
  unfold has_text. induction 1 as [c s Hc|c s Hs IH]; simpl.
  - rewrite Hc. now constructor.
  - destruct (isspace c); [exact IH|now apply Exists_cons_tl].
Qed.

Lemma has_text_strip (s : str) : has_text s -> has_text (strip s).
Proof.
  unfold strip, rstrip, has_text. intros H.
  apply List.Exists_rev. apply has_text_lstrip. apply List.Exists_rev.
  apply has_text_lstrip. exact H.
Qed.

Lemma has_text_nonempty (s : str) : has_text s -> s <> [].
Proof. intros H ->. inversion H. Qed.

Lemma clean_start_has_text (s : str) : s <> [] -> clean_start s -> has_text s.
Proof.
  destruct s as [|c s]; [congruence|]. intros _ Hc. now constructor.
Qed.

(** **** Occurrences *)

Lemma occurs_refl (p : str) : occurs p p.
Proof. exists [], []. now rewrite app_nil_r. Qed.

Lemma occurs_app_l (p s t : str) : occurs p s -> occurs p (s ++ t).
Proof.
  intros (l & r & ->). exists l, (r ++ t). now rewrite <- !app_assoc.
Qed.

Lemma occurs_app_r (p s t : str) : occurs p s -> occurs p (t ++ s).
Proof.
  intros (l & r & ->). exists (t ++ l), r. now rewrite <- !app_assoc.
Qed.

Lemma occurs_rev (p s : str) : occurs p s -> occurs (rev p) (rev s).
Proof.
  intros (l & r & ->). exists (rev r), (rev l).
  now rewrite !rev_app_distr, <- app_assoc.
Qed.

Lemma occurs_lstrip (p s : str) :
  p <> [] -> clean_start p -> occurs p s -> occurs p (lstrip s).
Proof.
  intros Hp Hstart (l & r & ->).
  destruct p as [|a p]; [congruence|]. simpl in Hstart.
  induction l as [|c l IH]; simpl.
  - rewrite Hstart. exists [], r. reflexivity.
  - destruct (isspace c); [exact IH|].
    exists (c :: l), r. reflexivity.
Qed.

Lemma occurs_strip (p s : str) :
  p <> [] -> clean_ends p -> occurs p s -> occurs p (strip s).
Proof.
  intros Hp [Hstart Hend] H. unfold strip, rstrip.
  rewrite <- (rev_involutive p). apply occurs_rev.
  apply occurs_lstrip; [|exact Hend|].
  - intros Hrev. apply Hp. rewrite <- (rev_involutive p), Hrev. reflexivity.
  - apply occurs_rev. now apply occurs_lstrip.
Qed.

(** **** Words *)

Lemma split_go_word (w cur s : str) :
  Forall (fun c => isspace c = false) w ->
  split_go cur (w ++ s) = split_go (rev w ++ cur) s.
Proof.
  intros Hw. revert cur.
  induction Hw as [|c w Hc _ IH]; intros cur; simpl; [reflexivity|].
  rewrite Hc, IH, <- app_assoc. reflexivity.
Qed.

Lemma rev_nonempty (w : str) : w <> [] -> rev w <> [].
Proof.
  intros Hw Hrev. apply Hw.
  rewrite <- (rev_involutive w), Hrev. reflexivity.
Qed.

Lemma split_go_end (cur : str) : cur <> [] -> split_go cur [] = [rev cur].
Proof. destruct cur; [congruence|reflexivity]. Qed.

Lemma split_go_space (cur s : str) :
  cur <> [] -> split_go cur (space :: s) = rev cur :: split_go [] s.
Proof. destruct cur; [congruence|reflexivity]. Qed.

(** [split] undoes [join] with a space, on words. *)
Lemma split_join (ws : list str) :
  Forall word ws -> split (join " " ws) = ws.
Proof.
  unfold split. induction 1 as [|w ws [Hne Hw] Hws IH]; [reflexivity|].
  pose proof (rev_nonempty w Hne) as Hrev.
  destruct ws as [|w2 ws].
  - pose proof (split_go_word w [] [] Hw) as H.
    rewrite !app_nil_r in H. cbn [join].
    rewrite H, (split_go_end _ Hrev), rev_involutive. reflexivity.
  - change (join " " (w :: w2 :: ws))
      with (w ++ space :: join " " (w2 :: ws)).
    rewrite (split_go_word w [] _ Hw), app_nil_r.
    rewrite (split_go_space _ _ Hrev), rev_involutive, IH. reflexivity.
Qed.

Lemma split_go_words (s cur : str) :
  Forall (fun c => isspace c = false) cur -> Forall word (split_go cur s).
Proof.
  revert cur; induction s as [|c s IH]; intros cur Hcur; simpl.
  - destruct cur as [|a cur]; [constructor|].
    constructor; [|constructor]. split.
    + intros Hrev. apply (f_equal (@length char)) in Hrev.
      rewrite length_rev in Hrev. discriminate.
    + now apply List.Forall_rev.
  - destruct (isspace c) eqn:Hc.
    + destruct cur as [|a cur]; [apply IH; constructor|].
      constructor; [|apply IH; constructor]. split.
      * intros Hrev. apply (f_equal (@length char)) in Hrev.
        rewrite length_rev in Hrev. discriminate.
      * now apply List.Forall_rev.
    + apply IH. now constructor.
Qed.

Lemma split_words (s : str) : Forall word (split s).
Proof. apply split_go_words. constructor. Qed.

Lemma Forall_skipn {A} (P : A -> Prop) (n : nat) (l : list A) :
  Forall P l -> Forall P (skipn n l).
Proof.
  revert l; induction n as [|n IH]; intros l H; [exact H|].
  destruct H; simpl; [constructor|now apply IH].
Qed.

End TextFacts.


(** ** Properties of retrieval *)

Module RetrievalFacts.
Import Retrieval Demo PyFacts.

Lemma ranks_of_matches (ms : list IndexMatch) (n : nat) :
  map rank (map result_of_match (enumerate n ms)) = seq (S n) (length ms).
Proof.
  revert n; induction ms as [|m ms IH]; intros n; simpl; [reflexivity|].
  now rewrite IH.
Qed.

(** The ranks [search] hands out are 1, 2, ..., n. *)
Lemma search_ranks ge iq query top_k fd :
  map rank (search ge iq query top_k fd)
  = seq 1 (length (search ge iq query top_k fd)).
Proof.
  unfold search.
  destruct (ge query) as [|e es]; simpl; [reflexivity|].
  destruct (iq (e :: es) top_k fd) as [ms|err]; simpl; [|reflexivity].
  now rewrite ranks_of_matches, length_map, length_enumerate.
Qed.

Lemma retrieve_is_filter ge iq query top_k j dt :
  retrieve_relevant_chunks ge iq query top_k j dt
  = List.filter above_floor (search ge iq query top_k (build_filter j dt)).
Proof. reflexivity. Qed.

(** A filtered strictly increasing list is strictly increasing. *)
Lemma filter_increasing {A} (key : A -> nat) (p : A -> bool) (l : list A) :
  StronglySorted lt (map key l) ->
  StronglySorted lt (map key (List.filter p l)).
Proof.
  induction l as [|x l IH]; simpl; intros Hs; [constructor|].
  inversion Hs as [|? ? Hs' Hall]; subst.
  destruct (p x); simpl; [|now apply IH].
  constructor; [now apply IH|].
  rewrite List.Forall_forall in *.
  intros k Hk. apply Hall.
  apply in_map_iff in Hk as (y & <- & Hy).
  apply in_map. now apply filter_In in Hy.
Qed.

Lemma filter_sublist {A} (p : A -> bool) (l : list A) :
  sublist (List.filter p l) l.
Proof.
  induction l as [|x l IH]; simpl; [constructor|].
  destruct (p x); now constructor.
Qed.

Lemma seq_increasing (a n : nat) : StronglySorted lt (seq a n).
Proof.
  revert a; induction n as [|n IH]; intros a; simpl; constructor; [apply IH|].
  rewrite List.Forall_forall. intros k Hk. apply in_seq in Hk. lia.
Qed.

(** C1: every result [retrieve_relevant_chunks] returns, whatever the query,
    the filters and the answers of the embedding model and of the index,
    satisfies [similarity_score >= 0.7]. *)
Theorem retrieve_score_floor
    (ge : str -> list float)
    (iq : list float -> Z -> gmap str MetaValue -> outcome (list IndexMatch))
    (query : str) (top_k : Z) (jurisdiction document_type : option str)
    (r : SearchResult) :
  In r (retrieve_relevant_chunks ge iq query top_k jurisdiction document_type) ->
  PrimFloat.leb 0.7%float (similarity_score r) = true.
Proof.
  rewrite retrieve_is_filter. intros Hin.
  apply filter_In in Hin as [_ Hfloor]. exact Hfloor.
Qed.

Lemma retrieve_score_floor_witness :
  let r := {| chunk := {| id := "chunk_b_0"; content := []; metadata := ∅;
                          embedding := None; source_url := None;
                          page_number := None; chunk_index := None |};
              similarity_score := 0.7%float; rank := 3 |} in
  In r (retrieve_relevant_chunks demo_embedding demo_query "llc filing" 5
          (Some ("California, USA" : str)) None)
  /\ PrimFloat.leb 0.7%float (similarity_score r) = true.
Proof.
  intros r.
  assert (Hin : In r (retrieve_relevant_chunks demo_embedding demo_query
                        "llc filing" 5 (Some ("California, USA" : str)) None)).
  { vm_compute. right. left. reflexivity. }
  split; [exact Hin|].
  exact (retrieve_score_floor demo_embedding demo_query "llc filing" 5
           (Some ("California, USA" : str)) None r Hin).
Defined.

(** C10: the list [retrieve_relevant_chunks] returns is the list of
    [VectorStore.search] with some elements removed: it is that list filtered
    by the floor, hence a sublist in the same order with every surviving
    record (its rank included) unchanged, and its ranks are strictly
    increasing; on the demo index the surviving ranks are 1 and 3, not
    contiguous. *)
Theorem retrieve_subsequence_of_search
    (ge : str -> list float)
    (iq : list float -> Z -> gmap str MetaValue -> outcome (list IndexMatch))
    (query : str) (top_k : Z) (jurisdiction document_type : option str) :
  let found := search ge iq query top_k (build_filter jurisdiction document_type) in
  let kept := retrieve_relevant_chunks ge iq query top_k jurisdiction document_type in
  kept = List.filter above_floor found
  /\ sublist kept found
  /\ map rank found = seq 1 (length found)
  /\ StronglySorted lt (map rank kept)
  /\ map rank (retrieve_relevant_chunks demo_embedding demo_query query top_k
                 jurisdiction document_type) = [1%nat; 3%nat].
Proof.
  intros found kept. subst found kept.
  rewrite retrieve_is_filter.
  split; [reflexivity|].
  split; [apply filter_sublist|].
  split; [apply search_ranks|].
  split.
  - apply filter_increasing. rewrite search_ranks. apply seq_increasing.
  - reflexivity.
Qed.

End RetrievalFacts.

(** ** Properties of chunking *)

Module ChunkerFacts.
Import Chunker Demo Text PyFacts TextFacts.

#[local] Existing Instance demo_unicode.

Section Loop.

Variable md5 : str -> str.
Variable self : DocumentChunker.
Variable text : str.
Variable md : gmap str MetaValue.

Let index_value (i : nat) : option MetaValue := Some (MInt (Z.of_nat i)).

(** The chunks closed so far carry the indices and the ids of their
    positions. *)
Let numbered (st : LoopState) : Prop :=
  map chunk_index (chunks st) = map index_value (seq 0 (next_index st))
  /\ map id (chunks st)
     = map (generate_chunk_id md5 text) (seq 0 (next_index st)).

Lemma numbered_close (st : LoopState) (buffer : str) :
  numbered st ->
  numbered {| chunks := chunks st ++ [make_chunk md5 text md buffer (next_index st)];
              current_chunk := buffer;
              next_index := S (next_index st) |}.
Proof.
  intros [Hi Hd]. unfold numbered. cbn [chunks next_index].
  rewrite !map_app, seq_S, !map_app, Hi, Hd. split; reflexivity.
Qed.

Lemma step_numbered (st : LoopState) (sentence : str) :
  numbered st -> numbered (step md5 self text md st sentence).
Proof.
  intros H. unfold step.
  destruct (_ && _)%bool.
  - destruct (numbered_close st (current_chunk st) H) as [Hi Hd].
    split; simpl in *; assumption.
  - exact H.
Qed.

Lemma fold_numbered (sentences : list str) (st : LoopState) :
  numbered st -> numbered (fold_left (step md5 self text md) sentences st).
Proof.
  revert st; induction sentences as [|u l IH]; intros st H; simpl; [exact H|].
  apply IH, step_numbered, H.
Qed.

Lemma flush_numbered (st : LoopState) :
  numbered st ->
  exists n,
    map chunk_index (flush md5 text md st) = map index_value (seq 0 n)
    /\ map id (flush md5 text md st)
       = map (generate_chunk_id md5 text) (seq 0 n).
Proof.
  intros H. unfold flush.
  destruct (Py.nonempty _).
  - exists (S (next_index st)).
    exact (numbered_close st (current_chunk st) H).
  - exists (next_index st). exact H.
Qed.

End Loop.

Lemma chunk_text_numbered {U : Py.Unicode} md5 self text md :
  let cs := chunk_text md5 self text md in
  map chunk_index cs
  = map (fun i => Some (MInt (Z.of_nat i))) (seq 0 (length cs))
  /\ map id cs
     = map (generate_chunk_id md5 (clean_text text)) (seq 0 (length cs)).
Proof.
  intros cs. subst cs. unfold chunk_text.
  set (cleaned := clean_text text).
  set (st := fold_left _ _ _).
  destruct (flush_numbered md5 cleaned (default ∅ md) st) as (n & Hi & Hd).
  { apply fold_numbered. split; reflexivity. }
  assert (Hn : length (flush md5 cleaned (default ∅ md) st) = n).
  { rewrite <- (length_map chunk_index), Hi, length_map. apply length_seq. }
  rewrite Hn. split; assumption.
Qed.

(** C3: two calls of [chunk_text] under the same [(chunk_size, overlap)]
    configuration on the same text and metadata return the same list of
    chunks; the [chunk_index] values of the result are 0, 1, 2, ... in
    order, and the id at position [i] is [generate_chunk_id] of the cleaned
    text and [i], so that it depends on the text and the position only. *)
Theorem chunk_text_deterministic {U : Py.Unicode}
    (md5 : str -> str) (self self' : DocumentChunker) (text : str)
    (md : option (gmap str MetaValue)) :
  chunk_size self' = chunk_size self ->
  overlap self' = overlap self ->
  let cs := chunk_text md5 self text md in
  chunk_text md5 self' text md = cs
  /\ map chunk_index cs
     = map (fun i => Some (MInt (Z.of_nat i))) (seq 0 (length cs))
  /\ map id cs
     = map (generate_chunk_id md5 (clean_text text)) (seq 0 (length cs)).
Proof.
  intros Hsize Hoverlap cs.
  split; [|apply chunk_text_numbered].
  destruct self as [size ov], self' as [size' ov']; simpl in *.
  now subst.
Qed.

Lemma chunk_text_deterministic_witness :
  let self := default_chunker in
  let self' := {| chunk_size := 512; overlap := 50 |} in
  let cs := chunk_text demo_md5 self long_words None in
  chunk_size self' = chunk_size self
  /\ overlap self' = overlap self
  /\ chunk_text demo_md5 self' long_words None = cs
  /\ map chunk_index cs = [Some (MInt 0); Some (MInt 1); Some (MInt 2)].
Proof.
  intros self self' cs.
  destruct (chunk_text_deterministic demo_md5 self self' long_words None
              eq_refl eq_refl) as (Hsame & Hindex & _).
  split; [reflexivity|]. split; [reflexivity|]. split; [exact Hsame|].
  etransitivity; [exact Hindex|]. vm_compute. reflexivity.
Defined.

(** *** The text handed to MD5 *)

(** The cleaned text holds no surrogate, so that [text.encode()] in
    [generate_chunk_id] does not raise. *)
Lemma cleaned_text_encodable {U : Py.Unicode} (text : str) :
  Py.encodable (clean_text text) = true.
Proof.
  unfold Py.encodable. apply forallb_forall. intros c Hc.
  assert (Hsafe : Forall (fun c => safelisted c = true) (clean_text text)).
  { unfold clean_text. apply Forall_strip, List.Forall_forall.
    intros x Hx. now apply filter_In in Hx as [_ Hx]. }
  rewrite List.Forall_forall in Hsafe. specialize (Hsafe c Hc).
  destruct (Py.issurrogate c) eqn:Hs; [|reflexivity]. exfalso.
  unfold safelisted, Py.isword in Hsafe.
  rewrite (Py.isalnum_surrogate c Hs) in Hsafe.
  unfold Py.issurrogate, Py.in_range in Hs.
  apply andb_true_iff in Hs as [Hlo Hhi]. apply N.leb_le in Hlo, Hhi.
  assert (Hno : forall x, (x < 0xd800)%N -> N.eqb c x = false).
  { intros x Hx. apply N.eqb_neq. lia. }
  assert (Hout : forall lo hi, (hi < 0xd800)%N -> Py.in_range lo hi c = false).
  { intros lo hi Hx. unfold Py.in_range. apply andb_false_iff. right.
    apply N.leb_gt. lia. }
  unfold Py.isspace, ispunct, Py.among in Hsafe. cbn [existsb str_of_string
    list_ascii_of_string map] in Hsafe.
  rewrite !Hout, !Hno in Hsafe by (cbn; lia). discriminate Hsafe.
Qed.

(** *** Texts without sentence content *)

Lemma Forall_sub_runs (P : char -> Prop) cls rep in_run (s : str) :
  P rep -> Forall P s -> Forall P (Py.sub_runs cls rep in_run s).
Proof.
  intros Hrep Hs. revert in_run.
  induction Hs as [|c s Hc Hs IH]; intros in_run; simpl; [constructor|].
  destruct (cls c); [destruct in_run|]; auto.
Qed.

Lemma Forall_list_filter {A} (P : A -> Prop) (f : A -> bool) (l : list A) :
  Forall P l -> Forall P (List.filter f l).
Proof.
  induction 1 as [|x l Hx Hl IH]; simpl; [constructor|].
  destruct (f x); auto.
Qed.

Lemma clean_text_blank {U : Py.Unicode} (text : str) :
  Forall blank text -> Forall blank (clean_text text).
Proof.
  intros H. unfold clean_text.
  apply Forall_strip, Forall_list_filter, Forall_sub_runs; [|exact H].
  now left.
Qed.

Lemma split_runs_blank (s cur : str) (in_run : bool) :
  Forall blank s ->
  Forall (fun c => Py.isspace c = true) cur ->
  Forall (Forall (fun c => Py.isspace c = true))
    (Py.split_runs isterminator cur in_run s).
Proof.
  intros Hs. revert cur in_run.
  induction Hs as [|c s Hc Hs IH]; intros cur in_run Hcur; simpl.
  - constructor; [now apply List.Forall_rev|constructor].
  - destruct (isterminator c) eqn:Hterm.
    + destruct in_run.
      * apply IH. constructor.
      * constructor; [now apply List.Forall_rev|]. apply IH. constructor.
    + apply IH. constructor; [|exact Hcur].
      destruct Hc as [Hc|Hc]; [exact Hc|congruence].
Qed.

Lemma blank_pieces_dropped (pieces : list str) :
  Forall (Forall (fun c => Py.isspace c = true)) pieces ->
  List.filter (fun s => Py.nonempty (Py.strip s)) pieces = [].
Proof.
  induction 1 as [|p l Hp Hl IH]; simpl; [reflexivity|].
  now rewrite (strip_blank p Hp).
Qed.

Lemma blank_forallb (text : str) :
  forallb (fun c => Py.isspace c || isterminator c)%bool text = true ->
  Forall blank text.
Proof.
  induction text as [|c text IH]; simpl; [constructor|].
  intros H. apply andb_true_iff in H as [Hc H].
  constructor; [|now apply IH].
  apply orb_true_iff in Hc. exact Hc.
Qed.

Lemma blank_has_no_unit (text : str) :
  Forall blank text -> split_into_sentences text = [].
Proof.
  intros H. unfold split_into_sentences.
  rewrite blank_pieces_dropped; [reflexivity|].
  apply split_runs_blank; [exact H|constructor].
Qed.

Lemma blank_text_has_no_unit {U : Py.Unicode} (text : str) :
  Forall blank text -> split_into_sentences (clean_text text) = [].
Proof. intros H. apply blank_has_no_unit, clean_text_blank, H. Qed.

(** C9: when the cleaned text has no sentence unit (the list of the
    non-blank pieces between the runs of [.!?] is empty), and in particular
    when every character of the cleaned text, or of the text itself, is a
    whitespace character or one of [. ! ?] (the empty text is such a text),
    [chunk_text] returns the empty list. Whitespace is what the
    interpreter takes for it: the no-break space and the other Unicode
    spaces count. *)
Theorem chunk_text_without_units {U : Py.Unicode}
    (md5 : str -> str) (self : DocumentChunker) (text : str)
    (md : option (gmap str MetaValue)) :
  split_into_sentences (clean_text text) = []
  \/ Forall blank (clean_text text) \/ Forall blank text ->
  chunk_text md5 self text md = [].
Proof.
  intros H.
  assert (Hunits : split_into_sentences (clean_text text) = []).
  { destruct H as [H|[H|H]]; [exact H|now apply blank_has_no_unit|].
    now apply blank_text_has_no_unit. }
  unfold chunk_text. rewrite Hunits. reflexivity.
Qed.

Lemma chunk_text_without_units_witness :
  let text : str := blank_page ++ [0xa0%N; 0x2003%N] ++ ("?!" : str) in
  (split_into_sentences (clean_text text) = []
   \/ Forall blank (clean_text text) \/ Forall blank text)
  /\ chunk_text demo_md5 default_chunker text None = []
  /\ chunk_text demo_md5 default_chunker [] None = [].
Proof.
  intros text.
  assert (H : split_into_sentences (clean_text text) = []
              \/ Forall blank (clean_text text) \/ Forall blank text).
  { right; right. apply blank_forallb. vm_compute. reflexivity. }
  split; [exact H|]. split.
  - exact (chunk_text_without_units demo_md5 default_chunker text None H).
  - apply (chunk_text_without_units demo_md5 default_chunker [] None).
    right; right. constructor.
Defined.

(** *** The length of a chunk *)

Section Shapes.

Variable md5 : str -> str.
Variable self : DocumentChunker.
Variable text : str.
Variable md : gmap str MetaValue.
Variable units : list str.








End Shapes.






End ChunkerFacts.

(** ** Properties of the crawler *)

Module CrawlerFacts.
Import Crawler Demo PyFacts.

#[local] Existing Instance demo_unicode.

#[local] Open Scope nat_scope.

(** *** Relevance *)

(** The test [keyword in content_lower]. *)
Lemma contains_nocase {U : Py.Unicode} (k content : str) :
  Py.contains k (Py.lower content) = true <-> Py.occurs_nocase k content.
Proof. apply contains_spec. Qed.

Lemma three_in_filter {A} (f : A -> bool) (l : list A) :
  List.NoDup l ->
  3 <= length (List.filter f l) <->
  exists x y z, In x l /\ In y l /\ In z l /\ x <> y /\ x <> z /\ y <> z
                /\ f x = true /\ f y = true /\ f z = true.
Proof.
  intros Hnd. split.
  - intros Hlen.
    assert (Hnd' : List.NoDup (List.filter f l)) by now apply List.NoDup_filter.
    destruct (List.filter f l) as [|x [|y [|z rest]]] eqn:Hf;
      simpl in Hlen; try lia.
    assert (Hin : forall a, In a [x; y; z] -> In a l /\ f a = true).
    { intros a Ha. apply filter_In. rewrite Hf. simpl in *. tauto. }
    destruct (Hin x) as [? ?]; [now left|].
    destruct (Hin y) as [? ?]; [right; now left|].
    destruct (Hin z) as [? ?]; [right; right; now left|].
    inversion Hnd' as [|? ? Hx Hnd'']; subst.
    inversion Hnd'' as [|? ? Hy _]; subst.
    exists x, y, z. repeat split; try assumption.
    + intros ->. apply Hx. now left.
    + intros ->. apply Hx. right; now left.
    + intros ->. apply Hy. now left.
  - intros (x & y & z & Hx & Hy & Hz & Hxy & Hxz & Hyz & Fx & Fy & Fz).
    assert (Hnd3 : List.NoDup [x; y; z]).
    { constructor; [simpl; intuition congruence|].
      constructor; [simpl; intuition congruence|].
      constructor; [simpl; tauto|constructor]. }
    apply (List.NoDup_incl_length Hnd3).
    intros a [<-|[<-|[<-|[]]]]; apply filter_In; now split.
Qed.

Lemma legal_keywords_distinct : List.NoDup legal_keywords.
Proof. apply NoDup_ListNoDup, (bool_decide_unpack _). vm_compute. exact I. Qed.

(** The test of [is_legal_content] counts the distinct keywords that occur
    in the lower-cased content. *)
Lemma is_legal_content_spec {U : Py.Unicode} (content : str) :
  is_legal_content content = true <-> three_keywords_occur content.
Proof.
  unfold is_legal_content, keyword_matches, three_keywords_occur.
  rewrite Nat.leb_le, (three_in_filter _ _ legal_keywords_distinct).
  split; intros (k1 & k2 & k3 & H1 & H2 & H3 & D12 & D13 & D23 & O1 & O2 & O3);
    exists k1, k2, k3; repeat split; try assumption;
    now apply contains_nocase.
Qed.



(** *** Jurisdiction *)

Ltac case_contains :=
  repeat match goal with
         | |- context [Py.contains ?p ?s] =>
             let E := fresh "E" in
             destruct (Py.contains p s) eqn:E;
             [apply contains_spec in E|apply contains_false in E]
         end.

(** What [extract_jurisdiction] does: the three domain rules test whether
    the literal occurs anywhere in the lower-cased [netloc] of the URL (user
    information and port included), in the order [.ca.gov], [.state.us],
    [.gov]; the [.state.us] rule answers the title-cased first label of the
    [netloc]; only when none of the three occurs is the lower-cased content
    searched, for "california", "new york", "texas" in this order;
    otherwise the answer is "Unknown". *)
Lemma jurisdiction_chain {U : Py.Unicode}
    (urlparse : str -> outcome ParseResult) (url content : str)
    (parsed : ParseResult) :
  urlparse url = Ok parsed ->
  let domain := Py.lower (netloc parsed) in
  let text := Py.lower content in
  let result := extract_jurisdiction urlparse url content in
  (Py.occurs ".ca.gov" domain -> result = Ok ("California, USA" : str))
  /\ (~ Py.occurs ".ca.gov" domain -> Py.occurs ".state.us" domain ->
      result = Ok (Py.title (Py.first_label domain) ++ (", USA" : str)))
  /\ (~ Py.occurs ".ca.gov" domain -> ~ Py.occurs ".state.us" domain ->
      Py.occurs ".gov" domain -> result = Ok ("Federal, USA" : str))
  /\ (~ Py.occurs ".ca.gov" domain -> ~ Py.occurs ".state.us" domain ->
      ~ Py.occurs ".gov" domain ->
      (Py.occurs "california" text -> result = Ok ("California, USA" : str))
      /\ (~ Py.occurs "california" text -> Py.occurs "new york" text ->
          result = Ok ("New York, USA" : str))
      /\ (~ Py.occurs "california" text -> ~ Py.occurs "new york" text ->
          Py.occurs "texas" text -> result = Ok ("Texas, USA" : str))
      /\ (~ Py.occurs "california" text -> ~ Py.occurs "new york" text ->
          ~ Py.occurs "texas" text -> result = Ok ("Unknown" : str))).
Proof.
  intros Hparse domain text result. subst result.
  unfold extract_jurisdiction. rewrite Hparse.
  cbn [mbind outcome_bind]. fold domain.
  unfold jurisdiction_of, jurisdiction_from_content. fold text.
  case_contains; repeat split; intros; first [reflexivity|contradiction].
Qed.

Lemma jurisdiction_chain_example :
  let url : str := "https://Texas.State.US/business" in
  let parsed := {| netloc := "Texas.State.US"; path := "/business" |} in
  demo_urlparse url = Ok parsed
  /\ ~ Py.occurs ".ca.gov" (Py.lower (netloc parsed))
  /\ Py.occurs ".state.us" (Py.lower (netloc parsed))
  /\ extract_jurisdiction demo_urlparse url "" = Ok ("Texas, USA" : str).
Proof.
  intros url parsed.
  assert (Hparse : demo_urlparse url = Ok parsed) by reflexivity.
  assert (Hca : ~ Py.occurs ".ca.gov" (Py.lower (netloc parsed))).
  { apply contains_false. reflexivity. }
  assert (Hstate : Py.occurs ".state.us" (Py.lower (netloc parsed))).
  { apply contains_spec. reflexivity. }
  split; [exact Hparse|]. split; [exact Hca|]. split; [exact Hstate|].
  destruct (jurisdiction_chain demo_urlparse url "" parsed Hparse)
    as (_ & Hrule & _).
  exact (Hrule Hca Hstate).
Qed.

(** C7 fails: the rules are tests of containment in the [netloc], not of
    the suffix of the host name. The crawler's own Texas seed,
    [mycpa.cpa.state.tx.us], has a [state.<code>.us] suffix and yet gets its
    jurisdiction from the content ("California, USA" when the page names
    California, "Unknown" when it names no state); [www.gov.uk] ends with
    none of the suffixes, the content names Texas, and the answer is
    "Federal, USA"; an address whose user information holds [.ca.gov] is
    Californian whatever its host; and on [www.texas.state.us] the state is
    read off the first label, "Www, USA". *)
Theorem jurisdiction_not_by_suffix :
  let seed : str := "https://mycpa.cpa.state.tx.us/" in
  let uk : str := "https://www.gov.uk/guide" in
  let userinfo : str := "https://www.sos.ca.gov@evil.example/x" in
  let state : str := "https://www.texas.state.us/" in
  In seed (default [] (CrawlAll.lookup_seeds CrawlAll.seed_urls "Texas"))
  /\ demo_urlparse seed = Ok {| netloc := "mycpa.cpa.state.tx.us"; path := "/" |}
  /\ Py.endswith ".us" "mycpa.cpa.state.tx.us" = true
  /\ Py.contains ".state." "mycpa.cpa.state.tx.us" = true
  /\ extract_jurisdiction demo_urlparse seed "california franchise tax board"
     = Ok ("California, USA" : str)
  /\ extract_jurisdiction demo_urlparse seed "" = Ok ("Unknown" : str)
  /\ demo_urlparse uk = Ok {| netloc := "www.gov.uk"; path := "/guide" |}
  /\ Py.endswith ".gov" "www.gov.uk" = false
  /\ Py.endswith ".us" "www.gov.uk" = false
  /\ jurisdiction_from_content "company filing rules for texas"
     = ("Texas, USA" : str)
  /\ extract_jurisdiction demo_urlparse uk "company filing rules for texas"
     = Ok ("Federal, USA" : str)
  /\ demo_urlparse userinfo
     = Ok {| netloc := "www.sos.ca.gov@evil.example"; path := "/x" |}
  /\ extract_jurisdiction demo_urlparse userinfo "" = Ok ("California, USA" : str)
  /\ extract_jurisdiction demo_urlparse state "" = Ok ("Www, USA" : str).
Proof. vm_compute. repeat split. left. reflexivity. Qed.

(** *** The loop of [discover_legal_sources] *)

Lemma grows_refl (st : CrawlState) : grows st st [] [].
Proof.
  unfold grows. rewrite !app_nil_r. simpl.
  split; [reflexivity|]. split; [lia|]. split; [reflexivity|].
  split; [reflexivity|]. split; [reflexivity|]. split; [set_solver|].
  split; [constructor|]. split; [intros u []|lia].
Qed.

Lemma grows_trans (st st1 st2 : CrawlState) s1 s2 a1 a2 :
  grows st st1 s1 a1 -> grows st1 st2 s2 a2 ->
  grows st st2 (s1 ++ s2) (a1 ++ a2).
Proof.
  intros (D1 & C1 & P1 & Q1 & E1 & V1 & N1 & F1 & L1)
         (D2 & C2 & P2 & Q2 & E2 & V2 & N2 & F2 & L2).
  unfold grows.
  rewrite D2, D1, C2, C1, P2, P1, Q2, Q1, E2, E1, V2, V1, !length_app.
  rewrite <- !app_assoc.
  repeat split; try reflexivity; try lia.
  - rewrite list_to_set_app_L. set_solver.
  - apply List.NoDup_app; try assumption.
    intros u Hu1 Hu2. apply (F2 u Hu2). rewrite V1.
    apply elem_of_union_r, elem_of_list_to_set, list_elem_of_In, Hu1.
  - intros u Hu. apply in_app_or in Hu as [Hu|Hu]; [now apply F1|].
    intros Hin. apply (F2 u Hu). rewrite V1. now apply elem_of_union_l.
  - rewrite Q2, Q1 in L2. rewrite Q1 in L1.
    repeat rewrite length_app in L1. repeat rewrite length_app in L2. lia.
Qed.

Lemma enqueue_links_grows (new_urls : list str) (st : CrawlState) :
  exists added, grows st (enqueue_links new_urls st) [] added.
Proof.
  revert st; induction new_urls as [|u rest IH]; intros st; simpl.
  - exists []. apply grows_refl.
  - destruct (bool_decide (u ∉ crawled_urls st)) eqn:Hfresh;
      [destruct (length (urls_to_crawl st) <? 50) eqn:Hroom|]; cbn [andb];
      try apply IH.
    apply bool_decide_eq_true in Hfresh. apply Nat.ltb_lt in Hroom.
    match goal with |- context [enqueue_links rest ?s] => set (st1 := s) end.
    destruct (IH st1) as (added & Hrest).
    exists ([u] ++ added).
    apply (grows_trans st st1 _ [] [] [u] added); [|exact Hrest].
    unfold grows, st1; simpl. rewrite !app_nil_r, length_app. simpl.
    repeat split; try reflexivity; try lia.
    + set_solver.
    + constructor; [intros []|constructor].
    + intros x [<-|[]]. exact Hfresh.
Qed.

Section Run.

Context {U : Py.Unicode}.

Variable urlparse : str -> outcome ParseResult.
Variable BeautifulSoup : str -> outcome Soup.
Variable urljoin : str -> str -> outcome str.
Variable md5_hexdigest : str -> str.
Variable now : Z.
Variable session_get : nat -> str -> outcome HttpResponse.
Variable playwright_content : nat -> str -> outcome str.

(** [crawl_url(url)] as the loop calls it, and the same on a numbered task. *)
Let crawl (tick : nat) (url : str) : option LegalSource :=
  crawl_url urlparse BeautifulSoup md5_hexdigest now session_get
    playwright_content tick url false.

Let crawl_task (task : nat * str) : option LegalSource :=
  crawl (fst task) (snd task).

Let links := extract_links_from_content urlparse BeautifulSoup urljoin.
Let handle := handle_result urlparse BeautifulSoup urljoin.
Let handle_all := handle_results urlparse BeautifulSoup urljoin.
Let batch :=
  run_batch urlparse BeautifulSoup urljoin md5_hexdigest now session_get
    playwright_content.
Let run :=
  drain urlparse BeautifulSoup urljoin md5_hexdigest now session_get
    playwright_content.

(** **** A fetch that fails *)

Lemma crawl_transport_error tick url e :
  session_get tick url = Raise e -> crawl tick url = None.
Proof.
  intros H. unfold crawl, crawl_url, crawl_with_aiohttp.
  destruct (urlparse url); cbn [mbind outcome_bind try_except];
    [rewrite H|]; reflexivity.
Qed.

Lemma crawl_bad_status tick url response :
  session_get tick url = Ok response -> status response <> 200%Z ->
  crawl tick url = None.
Proof.
  intros H Hstatus. unfold crawl, crawl_url, crawl_with_aiohttp.
  apply Z.eqb_neq in Hstatus.
  destruct (urlparse url); cbn [mbind outcome_bind try_except];
    [rewrite H; cbn [mbind outcome_bind try_except]; rewrite Hstatus|];
    reflexivity.
Qed.

Lemma crawl_body_error tick url response e :
  session_get tick url = Ok response -> text response = Raise e ->
  crawl tick url = None.
Proof.
  intros H Htext. unfold crawl, crawl_url, crawl_with_aiohttp.
  destruct (urlparse url); cbn [mbind outcome_bind try_except];
    [rewrite H; cbn [mbind outcome_bind try_except]; rewrite Htext;
     destruct (negb _)|]; reflexivity.
Qed.

Lemma crawl_render_error tick url e :
  playwright_content tick url = Raise e ->
  crawl_url urlparse BeautifulSoup md5_hexdigest now session_get
    playwright_content tick url true = None.
Proof.
  intros H. unfold crawl_url, crawl_with_playwright.
  destruct (urlparse url); cbn [mbind outcome_bind try_except];
    [rewrite H|]; reflexivity.
Qed.

Lemma crawl_refused tick url e use_playwright :
  urlparse url = Raise e ->
  crawl_url urlparse BeautifulSoup md5_hexdigest now session_get
    playwright_content tick url use_playwright = None.
Proof. intros H. unfold crawl_url. now rewrite H. Qed.

(** A fetch that succeeds hands the page to [process_html]. *)
Lemma crawl_fetched tick url parsed response html :
  urlparse url = Ok parsed ->
  session_get tick url = Ok response -> status response = 200%Z ->
  text response = Ok html ->
  crawl tick url
  = process_html urlparse BeautifulSoup md5_hexdigest now url html.
Proof.
  intros Hparse Hget Hstatus Htext. unfold crawl, crawl_url, crawl_with_aiohttp.
  rewrite Hparse. cbn [mbind outcome_bind try_except].
  rewrite Hget. cbn [mbind outcome_bind try_except].
  rewrite Hstatus, Htext. reflexivity.
Qed.

Lemma handle_failure (st : CrawlState) result :
  result = Ok None \/ (exists e, result = Raise e) ->
  handle st result = Ok st.
Proof. intros [->|[e ->]]; reflexivity. Qed.

(** **** One result, one batch *)

Lemma handle_grows (st st' : CrawlState) result :
  handle st result = Ok st' ->
  exists added,
    grows st st' (accepted [result]) added
    /\ (accepted [result] = [] -> added = []).
Proof.
  unfold handle, handle_result.
  destruct result as [[source|]|e]; intros H;
    try (injection H as <-; exists []; split; [apply grows_refl|reflexivity]).
  match type of H with
  | (if _ then _ else Ok ?s) = _ => set (st1 := s) in *
  end.
  assert (H1 : grows st st1 [source] []).
  { unfold grows, st1; simpl. rewrite !app_nil_r.
    split; [reflexivity|]. split; [reflexivity|]. split; [reflexivity|].
    split; [reflexivity|]. split; [reflexivity|]. split; [set_solver|].
    split; [constructor|]. split; [intros u []|lia]. }
  destruct (crawled_count st1 <? max_urls).
  - destruct (extract_links_from_content _ _ _ _ _) as [new_urls|e];
      cbn [mbind outcome_bind] in H; [|discriminate].
    injection H as <-.
    destruct (enqueue_links_grows new_urls st1) as (added & H2).
    exists added. split; [|discriminate].
    exact (grows_trans st st1 _ [source] [] [] added H1 H2).
  - injection H as <-. exists []. split; [exact H1|reflexivity].
Qed.

Lemma handle_raises (st : CrawlState) result e :
  handle st result = Raise e ->
  exists source,
    result = Ok (Some source) /\ links (content source) (url source) = Raise e.
Proof.
  unfold handle, handle_result, links.
  destruct result as [[source|]|e']; intros H; try discriminate.
  exists source. split; [reflexivity|].
  destruct (_ <? _); [|discriminate].
  destruct (extract_links_from_content _ _ _ _ _); [discriminate|].
  cbn [mbind outcome_bind] in H. congruence.
Qed.

Lemma accepted_cons result results :
  accepted (result :: results) = accepted [result] ++ accepted results.
Proof. unfold accepted. simpl. destruct result as [[?|]|?]; reflexivity. Qed.

Lemma handle_all_grows results (st st' : CrawlState) :
  handle_all st results = Ok st' ->
  exists added,
    grows st st' (accepted results) added
    /\ (accepted results = [] -> added = []).
Proof.
  revert st; induction results as [|r rest IH]; intros st H.
  - injection H as <-. exists []. split; [apply grows_refl|reflexivity].
  - unfold handle_all in H. cbn [handle_results] in H.
    destruct (handle_result _ _ _ st r) as [st1|e] eqn:H1;
      cbn [mbind outcome_bind] in H; [|discriminate].
    apply handle_grows in H1 as (a1 & G1 & Z1).
    apply IH in H as (a2 & G2 & Z2).
    exists (a1 ++ a2). rewrite accepted_cons. split.
    + exact (grows_trans st st1 st' _ _ _ _ G1 G2).
    + intros Hnone. apply app_eq_nil in Hnone as [N1 N2].
      now rewrite (Z1 N1), (Z2 N2).
Qed.

Lemma handle_all_raises results (st : CrawlState) e :
  handle_all st results = Raise e ->
  exists source,
    In (Ok (Some source)) results
    /\ links (content source) (url source) = Raise e.
Proof.
  revert st; induction results as [|r rest IH]; intros st H; [discriminate|].
  unfold handle_all in H. cbn [handle_results] in H.
  destruct (handle_result _ _ _ st r) as [st1|e'] eqn:H1;
    cbn [mbind outcome_bind] in H.
  - apply IH in H as (source & Hin & Hlinks).
    exists source. split; [now right|exact Hlinks].
  - injection H as ->. apply handle_raises in H1 as (source & -> & Hlinks).
    exists source. split; [now left|exact Hlinks].
Qed.

Lemma gather_from (first_tick k : nat) (urls : list str) :
  map (fun task => Ok (crawl (first_tick + fst task) (snd task)))
      (enumerate k urls)
  = map (fun task => Ok (crawl_task task)) (enumerate (first_tick + k) urls).
Proof.
  revert k; induction urls as [|u rest IH]; intros k; simpl; [reflexivity|].
  rewrite IH. now rewrite Nat.add_succ_r.
Qed.

Lemma accepted_gather (first_tick : nat) (urls : list str) :
  accepted (gather urlparse BeautifulSoup md5_hexdigest now session_get
              playwright_content first_tick urls)
  = omap crawl_task (enumerate first_tick urls).
Proof.
  unfold gather.
  change (accepted (map (fun task => Ok (crawl (first_tick + fst task) (snd task)))
                        (enumerate 0 urls))
          = omap crawl_task (enumerate first_tick urls)).
  rewrite gather_from, Nat.add_0_r.
  generalize (enumerate first_tick urls) as tasks.
  induction tasks as [|t tasks IH]; [reflexivity|].
  unfold accepted in *. cbn [omap list_omap map].
  destruct (crawl_task t); cbn; now rewrite IH.
Qed.

Lemma in_gather source (first_tick : nat) (urls : list str) :
  In (Ok (Some source))
     (gather urlparse BeautifulSoup md5_hexdigest now session_get
        playwright_content first_tick urls) ->
  exists tick u, In u urls /\ crawl tick u = Some source.
Proof.
  unfold gather.
  change (In (Ok (Some source))
             (map (fun task => Ok (crawl (first_tick + fst task) (snd task)))
                  (enumerate 0 urls)) ->
          exists tick u, In u urls /\ crawl tick u = Some source).
  generalize 0 as k.
  induction urls as [|u rest IH]; intros k; simpl; [intros []|].
  intros [H|H].
  - injection H as H. exists (first_tick + k), u. split; [now left|exact H].
  - apply IH in H as (tick & v & Hv & Hc). exists tick, v.
    split; [now right|exact Hc].
Qed.

Lemma length_omap_le {A B} (f : A -> option B) (l : list A) :
  length (omap f l) <= length l.
Proof.
  induction l as [|x l IH]; [simpl; lia|].
  cbn [omap list_omap]. destruct (f x); cbn [length]; fold (omap f l); lia.
Qed.

Lemma batch_grows (st st' : CrawlState) :
  batch st = Ok st' ->
  let current_batch := firstn 10 (urls_to_crawl st) in
  let sources :=
    omap crawl_task (enumerate (length (dispatched st)) current_batch) in
  exists added,
    discovered_sources st' = discovered_sources st ++ sources
    /\ crawled_count st' = crawled_count st + length sources
    /\ dispatched st' = dispatched st ++ current_batch
    /\ urls_to_crawl st' = skipn 10 (urls_to_crawl st) ++ added
    /\ enqueued st' = enqueued st ++ added
    /\ crawled_urls st' = crawled_urls st ∪ list_to_set added
    /\ List.NoDup added
    /\ (forall u, In u added -> u ∉ crawled_urls st)
    /\ length (urls_to_crawl st')
       <= Nat.max (length (skipn 10 (urls_to_crawl st))) 50
    /\ (sources = [] -> added = [])
    /\ length sources <= 10.
Proof.
  intros H current_batch sources. unfold batch, run_batch in H.
  apply handle_all_grows in H as (added & G & Hnone).
  rewrite accepted_gather in G, Hnone.
  destruct G as (D & C & P & Q & E & V & N & F & L). cbn in D, C, P, Q, E, V, F, L.
  exists added.
  split; [exact D|]. split; [exact C|]. split; [exact P|]. split; [exact Q|].
  split; [exact E|]. split; [exact V|]. split; [exact N|]. split; [exact F|].
  split; [exact L|]. split; [exact Hnone|].
  subst sources current_batch.
  etransitivity; [apply length_omap_le|].
  rewrite length_enumerate, List.length_firstn. lia.
Qed.

(** **** Termination *)

Lemma loop_condition_true (st : CrawlState) :
  loop_condition st = true
  <-> urls_to_crawl st <> [] /\ crawled_count st < max_urls.
Proof.
  unfold loop_condition. rewrite andb_true_iff, Nat.ltb_lt.
  destruct (urls_to_crawl st); split; intros [H1 H2]; split;
    congruence || assumption.
Qed.

Lemma run_stop (n : nat) (st : CrawlState) :
  loop_condition st = false -> run n st = Some (Ok st).
Proof. intros H. destruct n; unfold run; simpl; now rewrite H. Qed.

Lemma run_step (n : nat) (st : CrawlState) :
  loop_condition st = true ->
  run (S n) st = match batch st with
                 | Ok st' => run n st'
                 | Raise e => Some (Raise e)
                 end.
Proof. intros H. unfold run; simpl. now rewrite H. Qed.

Lemma turns_decrease (st st' : CrawlState) :
  loop_condition st = true -> batch st = Ok st' ->
  loop_condition st' = true -> turns st' < turns st.
Proof.
  intros Hloop Hbatch Hloop'.
  apply loop_condition_true in Hloop as [Hq Hc].
  apply loop_condition_true in Hloop' as [_ Hc'].
  destruct (batch_grows st st' Hbatch)
    as (added & _ & C & _ & Q & _ & _ & _ & _ & L & Hnone & _).
  cbn zeta in C, Hnone.
  assert (Hskip : length (skipn 10 (urls_to_crawl st)) < length (urls_to_crawl st)).
  { rewrite List.length_skipn. destruct (urls_to_crawl st); simpl; [congruence|lia]. }
  unfold turns.
  destruct (omap crawl_task _) as [|source sources] eqn:Hsources.
  - rewrite (Hnone eq_refl), app_nil_r in Q. rewrite Q. simpl in C. lia.
  - simpl in C. lia.
Qed.

Lemma run_enough (n : nat) (st : CrawlState) :
  turns st <= n -> exists r, run n st = Some r.
Proof.
  revert st; induction n as [|n IH]; intros st Hn.
  - unfold turns in Hn. lia.
  - destruct (loop_condition st) eqn:Hloop.
    + rewrite (run_step n st Hloop).
      destruct (batch st) as [st'|e] eqn:Hbatch; [|now eexists].
      destruct (loop_condition st') eqn:Hloop'.
      * apply IH. pose proof (turns_decrease st st' Hloop Hbatch Hloop'). lia.
      * rewrite (run_stop n st' Hloop'). now eexists.
    + rewrite (run_stop (S n) st Hloop). now eexists.
Qed.

(** **** What a run preserves *)

Lemma run_preserves (P : CrawlState -> Prop) :
  (forall st st', loop_condition st = true -> P st -> batch st = Ok st' -> P st') ->
  forall n st st',
    P st -> run n st = Some (Ok st') -> P st' /\ loop_condition st' = false.
Proof.
  intros Hstep. induction n as [|n IH]; intros st st' HP Hrun;
    destruct (loop_condition st) eqn:Hloop.
  - unfold run in Hrun; simpl in Hrun. rewrite Hloop in Hrun. discriminate.
  - rewrite (run_stop 0 st Hloop) in Hrun. injection Hrun as <-. now split.
  - rewrite (run_step n st Hloop) in Hrun.
    destruct (batch st) as [st1|e] eqn:Hbatch; [|discriminate].
    apply (IH st1 st'); [|exact Hrun]. now apply (Hstep st st1).
  - rewrite (run_stop (S n) st Hloop) in Hrun. injection Hrun as <-. now split.
Qed.

Lemma run_raises (n : nat) (st : CrawlState) e :
  run n st = Some (Raise e) ->
  exists source tick u,
    crawl tick u = Some source
    /\ links (content source) (url source) = Raise e.
Proof.
  revert st; induction n as [|n IH]; intros st Hrun;
    destruct (loop_condition st) eqn:Hloop.
  - unfold run in Hrun; simpl in Hrun. rewrite Hloop in Hrun. discriminate.
  - rewrite (run_stop 0 st Hloop) in Hrun. discriminate.
  - rewrite (run_step n st Hloop) in Hrun.
    destruct (batch st) as [st1|e'] eqn:Hbatch; [now apply (IH st1)|].
    injection Hrun as ->. unfold batch, run_batch in Hbatch.
    apply handle_all_raises in Hbatch as (source & Hin & Hlinks).
    apply in_gather in Hin as (tick & u & _ & Hc).
    now exists source, tick, u.
  - rewrite (run_stop (S n) st Hloop) in Hrun. discriminate.
Qed.

Lemma batch_invariant (seed_urls : list str) (visited : gset str)
    (st st' : CrawlState) :
  loop_condition st = true ->
  crawl_invariant crawl_task seed_urls visited st ->
  batch st = Ok st' ->
  crawl_invariant crawl_task seed_urls visited st'.
Proof.
  intros Hloop (J1 & J2 & J3 & J4 & found & J5 & J6 & J7 & J8) Hbatch.
  apply loop_condition_true in Hloop as [_ Hc].
  destruct (batch_grows st st' Hbatch)
    as (added & D & C & P & Q & E & V & N & F & _ & _ & Hten).
  cbn zeta in D, C, P, Hten.
  unfold crawl_invariant.
  split. { rewrite D, P, enumerate_app, omap_app, J1. reflexivity. }
  split. { rewrite C, D, length_app, J2. reflexivity. }
  split. { rewrite C. lia. }
  split. { rewrite E, P, Q, J4, <- !app_assoc.
           now rewrite (app_assoc (firstn _ _)), firstn_skipn. }
  exists (found ++ added).
  split. { rewrite E, J5, app_assoc. reflexivity. }
  split. { apply List.NoDup_app; try assumption.
           intros u Hu1 Hu2. apply (F u Hu2). rewrite J8.
           apply elem_of_union_r, elem_of_list_to_set, list_elem_of_In, Hu1. }
  split. { intros u Hu. apply in_app_or in Hu as [Hu|Hu]; [now apply J7|].
           intros Hin. apply (F u Hu). rewrite J8. now apply elem_of_union_l. }
  rewrite V, J8, list_to_set_app_L. set_solver.
Qed.

Lemma seeded_invariant (seed_urls : list str) (visited : gset str) :
  crawl_invariant crawl_task seed_urls visited (seeded seed_urls visited).
Proof.
  unfold crawl_invariant, seeded; simpl.
  split; [reflexivity|]. split; [reflexivity|]. split; [lia|].
  split; [reflexivity|]. exists [].
  rewrite app_nil_r. split; [reflexivity|]. split; [constructor|].
  split; [intros u []|set_solver].
Qed.

(** The run of [discover_legal_sources] ends, and the state it ends in
    satisfies the invariant with the loop test false. *)
Lemma discover_run_ends (seed_urls : list str) (visited : gset str) :
  exists r,
    discover_run urlparse BeautifulSoup urljoin md5_hexdigest now session_get
      playwright_content seed_urls visited = Some r
    /\ match r with
       | Ok st => crawl_invariant crawl_task seed_urls visited st
                  /\ loop_condition st = false
       | Raise e => exists source tick u,
                      crawl tick u = Some source
                      /\ links (content source) (url source) = Raise e
       end.
Proof.
  unfold discover_run. fold run.
  destruct (run_enough (turns (seeded seed_urls visited))
              (seeded seed_urls visited)) as [r Hr]; [lia|].
  exists r. split; [exact Hr|].
  destruct r as [st|e].
  - apply (run_preserves (crawl_invariant crawl_task seed_urls visited)
             (batch_invariant seed_urls visited) _ _ _
             (seeded_invariant seed_urls visited) Hr).
  - exact (run_raises _ _ _ Hr).
Qed.

End Run.

Lemma in_enumerate {A} (l : list A) (n i : nat) (x : A) :
  nth_error l i = Some x -> In (n + i, x) (enumerate n l).
Proof.
  revert n i; induction l as [|y l IH]; intros n [|i]; simpl; try discriminate.
  - intros H. injection H as ->. left. now rewrite Nat.add_0_r.
  - intros H. right. rewrite <- Nat.add_succ_comm. now apply IH.
Qed.

Lemma in_omap {A B} (f : A -> option B) (l : list A) (x : A) (y : B) :
  In x l -> f x = Some y -> In y (omap f l).
Proof.
  intros Hx Hf. induction l as [|a l IH]; [destruct Hx|].
  cbn [omap list_omap]. destruct Hx as [->|Hx].
  - rewrite Hf. now left.
  - destruct (f a); [right|]; now apply IH.
Qed.

(** C8: a fetch that fails (the transport raises, the status is not 200,
    reading the body raises, the rendering raises, [urlparse] refuses the
    address) makes [crawl_url] return [None] and raises nothing, while a
    fetch that succeeds hands its page to [process_html]; a result that is
    [None] or an exception leaves the variables of the loop as they are.
    One batch fetches every address it took off the queue and appends the
    source of each fetch that gave one, in order, whatever the other fetches
    gave, and the count grows by their number; the loop then goes on with
    the state the batch left. Every run of [discover_legal_sources] ends:
    either normally, and then the sources are those of the fetches of the
    addresses dispatched, in order, their number is the count, the
    addresses dispatched and those still waiting are the seeds followed by
    the links found, and, when fewer than [max_urls] sources were found, no
    address is left waiting and every seed whose fetch gave a source has
    this source in the result, whichever other fetches failed; or with the
    exception that extracting the links of an accepted page raised, never
    with one of a fetch. *)
Theorem fetch_failure_is_contained {U : Py.Unicode}
    (urlparse : str -> outcome ParseResult)
    (BeautifulSoup : str -> outcome Soup)
    (urljoin : str -> str -> outcome str)
    (md5_hexdigest : str -> str) (now : Z)
    (session_get : nat -> str -> outcome HttpResponse)
    (playwright_content : nat -> str -> outcome str) :
  let fetch := crawl_url urlparse BeautifulSoup md5_hexdigest now session_get
                 playwright_content in
  let fetch_task (task : nat * str) := fetch (fst task) (snd task) false in
  let links := extract_links_from_content urlparse BeautifulSoup urljoin in
  let batch := run_batch urlparse BeautifulSoup urljoin md5_hexdigest now
                 session_get playwright_content in
  let run := drain urlparse BeautifulSoup urljoin md5_hexdigest now
               session_get playwright_content in
  (forall tick url e,
     session_get tick url = Raise e -> fetch tick url false = None)
  /\ (forall tick url response,
        session_get tick url = Ok response -> status response <> 200%Z ->
        fetch tick url false = None)
  /\ (forall tick url response e,
        session_get tick url = Ok response -> text response = Raise e ->
        fetch tick url false = None)
  /\ (forall tick url e,
        playwright_content tick url = Raise e -> fetch tick url true = None)
  /\ (forall tick url e use_playwright,
        urlparse url = Raise e -> fetch tick url use_playwright = None)
  /\ (forall tick url parsed response html,
        urlparse url = Ok parsed ->
        session_get tick url = Ok response -> status response = 200%Z ->
        text response = Ok html ->
        fetch tick url false
        = process_html urlparse BeautifulSoup md5_hexdigest now url html)
  /\ (forall st result,
        result = Ok None \/ (exists e, result = Raise e) ->
        handle_result urlparse BeautifulSoup urljoin st result = Ok st)
  /\ (forall st st',
        batch st = Ok st' ->
        let current_batch := firstn 10 (urls_to_crawl st) in
        let sources :=
          omap fetch_task (enumerate (length (dispatched st)) current_batch) in
        discovered_sources st' = discovered_sources st ++ sources
        /\ crawled_count st' = crawled_count st + length sources
        /\ dispatched st' = dispatched st ++ current_batch)
  /\ (forall st e,
        batch st = Raise e ->
        exists source tick u,
          fetch tick u false = Some source
          /\ links (content source) (url source) = Raise e)
  /\ (forall fuel st st',
        loop_condition st = true -> batch st = Ok st' ->
        run (S fuel) st = run fuel st')
  /\ (forall seed_urls visited,
        exists r,
          discover_run urlparse BeautifulSoup urljoin md5_hexdigest now
            session_get playwright_content seed_urls visited = Some r
          /\ match r with
             | Ok st =>
                 discovered_sources st
                 = omap fetch_task (enumerate 0 (dispatched st))
                 /\ crawled_count st = length (discovered_sources st)
                 /\ (exists found,
                       dispatched st ++ urls_to_crawl st = seed_urls ++ found)
                 /\ (length (discovered_sources st) < max_urls ->
                     urls_to_crawl st = []
                     /\ forall i u source,
                          nth_error seed_urls i = Some u ->
                          fetch i u false = Some source ->
                          In source (discovered_sources st))
             | Raise e =>
                 exists source tick u,
                   fetch tick u false = Some source
                   /\ links (content source) (url source) = Raise e
             end).
Proof.
  intros fetch fetch_task links batch run.
  split; [apply crawl_transport_error|].
  split; [apply crawl_bad_status|].
  split; [apply crawl_body_error|].
  split; [apply crawl_render_error|].
  split; [intros tick url e use_playwright; apply crawl_refused|].
  split; [apply crawl_fetched|].
  split; [apply handle_failure|].
  split.
  { intros st st' Hbatch current_batch sources.
    destruct (batch_grows _ _ _ _ _ _ _ _ _ Hbatch)
      as (added & D & C & P & _).
    split; [exact D|]. split; [exact C|exact P]. }
  split.
  { intros st e Hbatch. unfold batch, run_batch in Hbatch.
    apply handle_all_raises in Hbatch as (source & Hin & Hlinks).
    apply in_gather in Hin as (tick & u & _ & Hc).
    now exists source, tick, u. }
  split.
  { intros fuel st st' Hloop Hbatch.
    unfold run. rewrite (run_step _ _ _ _ _ _ _ fuel st Hloop).
    fold batch. now rewrite Hbatch. }
  intros seed_urls visited.
  destruct (discover_run_ends urlparse BeautifulSoup urljoin md5_hexdigest now
              session_get playwright_content seed_urls visited)
    as (r & Hr & Hend).
  exists r. split; [exact Hr|].
  destruct r as [st|e]; [|exact Hend].
  destruct Hend as ((J1 & J2 & _ & J4 & found & J5 & _) & Hloop).
  split; [exact J1|]. split; [exact J2|].
  split; [exists found; now rewrite <- J4|].
  intros Hcount.
  assert (Hqueue : urls_to_crawl st = []).
  { unfold loop_condition in Hloop. rewrite <- J2 in Hcount.
    apply Nat.ltb_lt in Hcount. rewrite Hcount, andb_true_r in Hloop.
    now destruct (urls_to_crawl st). }
  split; [exact Hqueue|].
  intros i u source Hi Hfetch. rewrite J1.
  apply (in_omap _ _ (i, u)); [|exact Hfetch].
  rewrite Hqueue, app_nil_r in J4. rewrite <- J4, J5.
  apply (in_enumerate _ 0 i u).
  rewrite nth_error_app1; [exact Hi|].
  apply nth_error_Some. congruence.
Qed.

(** What the loop does guarantee on the number of sources: the test is made
    between two batches only, so that a batch entered below [max_urls] may
    add up to ten sources. *)
Lemma accepted_at_most {U : Py.Unicode}
    (urlparse : str -> outcome ParseResult)
    (BeautifulSoup : str -> outcome Soup)
    (urljoin : str -> str -> outcome str)
    (md5_hexdigest : str -> str) (now : Z)
    (session_get : nat -> str -> outcome HttpResponse)
    (playwright_content : nat -> str -> outcome str)
    (seed_urls : list str) (visited : gset str) (sources : list LegalSource) :
  discover_legal_sources urlparse BeautifulSoup urljoin md5_hexdigest now
    session_get playwright_content seed_urls visited = Some (Ok sources) ->
  length sources <= max_urls + 9.
Proof.
  unfold discover_legal_sources.
  destruct (discover_run_ends urlparse BeautifulSoup urljoin md5_hexdigest now
              session_get playwright_content seed_urls visited)
    as (r & Hr & Hend).
  rewrite Hr. destruct r as [st|e]; [|discriminate].
  intros H. injection H as <-.
  destruct Hend as ((_ & J2 & J3 & _) & _). lia.
Qed.

(** What the loop does guarantee on the queue: the addresses put on it
    after the seeds are distinct, were not in [self.crawled_urls] on entry,
    and are in it at the end. *)
Lemma links_enqueued_once {U : Py.Unicode}
    (urlparse : str -> outcome ParseResult)
    (BeautifulSoup : str -> outcome Soup)
    (urljoin : str -> str -> outcome str)
    (md5_hexdigest : str -> str) (now : Z)
    (session_get : nat -> str -> outcome HttpResponse)
    (playwright_content : nat -> str -> outcome str)
    (seed_urls : list str) (visited : gset str) (st : CrawlState) :
  discover_run urlparse BeautifulSoup urljoin md5_hexdigest now
    session_get playwright_content seed_urls visited = Some (Ok st) ->
  exists found,
    enqueued st = seed_urls ++ found
    /\ List.NoDup found
    /\ (forall u, In u found -> u ∉ visited)
    /\ crawled_urls st = visited ∪ list_to_set found.
Proof.
  destruct (discover_run_ends urlparse BeautifulSoup urljoin md5_hexdigest now
              session_get playwright_content seed_urls visited)
    as (r & Hr & Hend).
  rewrite Hr. intros H. injection H as ->.
  destruct Hend as ((_ & _ & _ & _ & Hfound) & _). exact Hfound.
Qed.

(** C5 fails on 110 seeds of which the first answers 404 and the others a
    page with three keywords: ten batches leave 99 sources, the eleventh is
    dispatched whole and the run returns 109 sources, above [max_urls]. *)
Theorem discover_overshoots :
  match demo_discover "llc tax court" "https://s0.gov/" many_seeds with
  | Some (Ok st) =>
      length (discovered_sources st) = 109
      /\ crawled_count st = 109
      /\ length (dispatched st) = 110
      /\ max_urls = 100
  | _ => False
  end.
Proof. vm_compute. repeat split. Qed.

(** C6 fails on one seed whose page links to itself: the seed is not in
    [crawled_urls], so the link is put on the queue, the address is on the
    queue twice, is fetched twice and gives two sources. *)
Theorem seed_enqueued_twice :
  match demo_discover self_page_html "" [("https://a.gov/" : str)] with
  | Some (Ok st) =>
      enqueued st = [("https://a.gov/" : str); ("https://a.gov/" : str)]
      /\ dispatched st = [("https://a.gov/" : str); ("https://a.gov/" : str)]
      /\ length (discovered_sources st) = 2
      /\ map url (discovered_sources st) = enqueued st
  | _ => False
  end.
Proof. vm_compute. repeat split. Qed.

End CrawlerFacts.

(** ** More properties of chunking *)

Module ChunkerMore.
Import Chunker Text PyFacts TextFacts.

#[local] Existing Instance Demo.demo_unicode.

Lemma sub_runs_spaces (in_run : bool) (s : str) :
  Forall (fun c => Py.isspace c = true -> c = Py.space)
    (Py.sub_runs Py.isspace Py.space in_run s).
Proof.
  revert in_run; induction s as [|c s IH]; intros in_run; simpl; [constructor|].
  destruct (Py.isspace c) eqn:Hc.
  - destruct in_run; [apply IH|]. constructor; [reflexivity|apply IH].
  - constructor; [congruence|apply IH].
Qed.

(** X1: the cleaned text holds safelisted characters only (word
    characters, whitespace and [.,!?;:()-]), its only whitespace character
    is the space U+0020, and it neither begins nor ends with one. *)
Theorem clean_text_shape {U : Py.Unicode} (text : str) :
  Forall (fun c => safelisted c = true
                   /\ (Py.isspace c = true -> c = Py.space))
    (clean_text text)
  /\ clean_ends (clean_text text).
Proof.
  unfold clean_text. split; [|apply strip_clean_ends].
  apply Forall_strip. apply List.Forall_forall. intros c Hc.
  apply filter_In in Hc as [Hin Hsafe]. split; [exact Hsafe|].
  pose proof (sub_runs_spaces false text) as Hall.
  rewrite List.Forall_forall in Hall. now apply Hall.
Qed.

Lemma split_runs_pieces (s cur : str) (in_run : bool) :
  Forall (fun c => isterminator c = false) cur ->
  Forall (Forall (fun c => isterminator c = false))
    (Py.split_runs isterminator cur in_run s).
Proof.
  revert cur in_run; induction s as [|c s IH]; intros cur in_run Hcur; simpl.
  - constructor; [now apply List.Forall_rev|constructor].
  - destruct (isterminator c) eqn:Hc.
    + destruct in_run; [apply IH; constructor|].
      constructor; [now apply List.Forall_rev|apply IH; constructor].
    + apply IH. now constructor.
Qed.

Lemma units_wellformed (text : str) :
  Forall (fun u => u <> []
                   /\ Forall (fun c => isterminator c = false) u
                   /\ clean_ends u)
    (split_into_sentences text).
Proof.
  unfold split_into_sentences.
  pose proof (split_runs_pieces text [] false (List.Forall_nil _)) as Hpieces.
  induction Hpieces as [|p pieces Hp _ IH]; simpl; [constructor|].
  destruct (Py.nonempty (Py.strip p)) eqn:Hne; [|exact IH].
  constructor; [|exact IH].
  split; [now apply nonempty_true|].
  split; [now apply Forall_strip|apply strip_clean_ends].
Qed.

(** X2: every sentence unit is non-empty, holds none of the characters
    [. ! ?], and neither begins nor ends with a whitespace character (a
    Unicode space such as the no-break space included). *)
Theorem sentences_shape (text : str) :
  Forall (fun u => u <> []
                   /\ Forall (fun c => isterminator c = false) u
                   /\ clean_ends u)
    (split_into_sentences text).
Proof. exact (units_wellformed text). Qed.

Lemma skipn_min {A} (n : nat) (l : list A) :
  skipn (Nat.min n (length l)) l = skipn n l.
Proof.
  destruct (Nat.le_ge_cases n (length l)) as [H|H].
  - now rewrite Nat.min_l.
  - rewrite Nat.min_r by exact H. now rewrite !skipn_all2.
Qed.

(** X3: for an overlap of at least one word, the words of the overlap text
    are the last [overlap_size] words of the buffer, all of them when the
    buffer has no more than that. *)
Theorem overlap_words (text : str) (overlap_size : Z) :
  1 <= overlap_size ->
  let words := Py.split text in
  Py.split (get_overlap_text text overlap_size)
  = skipn (length words - Z.to_nat overlap_size) words
  /\ length (Py.split (get_overlap_text text overlap_size))
     = Nat.min (Z.to_nat overlap_size) (length words).
Proof.
  intros Hn words.
  assert (Hsplit : Py.split (get_overlap_text text overlap_size)
                   = skipn (length words - Z.to_nat overlap_size) words).
  { unfold get_overlap_text. fold words.
    destruct (Z.leb_spec (Z.of_nat (length words)) overlap_size) as [Hle|Hgt].
    - replace (length words - Z.to_nat overlap_size)%nat with 0%nat by lia.
      reflexivity.
    - unfold Py.slice_from.
      destruct (Z.ltb_spec (- overlap_size) 0) as [_|Hneg]; [|lia].
      replace (Z.to_nat (Z.max 0 (- overlap_size + Z.of_nat (length words))))
        with (length words - Z.to_nat overlap_size)%nat by lia.
      apply split_join, Forall_skipn, split_words. }
  split; [exact Hsplit|].
  rewrite Hsplit, List.length_skipn. lia.
Qed.

Lemma overlap_words_witness :
  let text : str := "the articles of  organization are filed" in
  1 <= 2
  /\ Py.split (get_overlap_text text 2) = [("are" : str); ("filed" : str)].
Proof.
  intros text. split; [lia|].
  destruct (overlap_words text 2 ltac:(lia)) as [H _].
  etransitivity; [exact H|reflexivity].
Defined.

Lemma join_nil (ws : list str) :
  Forall word ws -> Py.join " " ws = [] -> ws = [].
Proof.
  intros Hws Hjoin. destruct Hws as [|w ws [Hw _] _]; [reflexivity|].
  exfalso. apply Hw. destruct ws; simpl in Hjoin; [exact Hjoin|].
  now apply app_eq_nil in Hjoin as [Hjoin _].
Qed.

(** X4: for an overlap of zero or less and a text with a word, the overlap
    text is made of the words of the text but the first [- overlap_size],
    joined by single spaces: an overlap of zero carries every word over, a
    negative overlap [-k] drops the first [k] words, and the overlap text is
    empty exactly when [k] is at least the number of words. *)
Theorem overlap_not_positive (text : str) (overlap_size : Z) :
  overlap_size <= 0 ->
  Py.split text <> [] ->
  get_overlap_text text overlap_size
  = Py.join " " (skipn (Z.to_nat (- overlap_size)) (Py.split text))
  /\ Py.split (get_overlap_text text overlap_size)
     = skipn (Z.to_nat (- overlap_size)) (Py.split text)
  /\ (overlap_size = 0 ->
      Py.split (get_overlap_text text overlap_size) = Py.split text)
  /\ (get_overlap_text text overlap_size = []
      <-> (length (Py.split text) <= Z.to_nat (- overlap_size))%nat).
Proof.
  intros Hn Hwords.
  assert (Htext : get_overlap_text text overlap_size
                  = Py.join " " (skipn (Z.to_nat (- overlap_size))
                                       (Py.split text))).
  { unfold get_overlap_text.
    destruct (Z.leb_spec (Z.of_nat (length (Py.split text))) overlap_size)
      as [Hle|_].
    - destruct (Py.split text); [congruence|simpl in Hle; lia].
    - unfold Py.slice_from.
      destruct (Z.ltb_spec (- overlap_size) 0) as [Hneg|_]; [lia|].
      rewrite <- (skipn_min (Z.to_nat (- overlap_size))). f_equal. f_equal.
      lia. }
  assert (Hkept : Forall word (skipn (Z.to_nat (- overlap_size))
                                 (Py.split text))).
  { apply Forall_skipn, split_words. }
  assert (Hsplit : Py.split (get_overlap_text text overlap_size)
                   = skipn (Z.to_nat (- overlap_size)) (Py.split text)).
  { rewrite Htext. now apply split_join. }
  split; [exact Htext|]. split; [exact Hsplit|].
  split; [intros ->; exact Hsplit|].
  rewrite Htext. split.
  - intros Hnil. apply (join_nil _ Hkept) in Hnil.
    apply (f_equal (@length str)) in Hnil.
    rewrite List.length_skipn in Hnil. simpl in Hnil. lia.
  - intros Hlen. now rewrite skipn_all2.
Qed.

Lemma overlap_not_positive_witness :
  let text : str := "file the  articles" in
  -1 <= 0 /\ Py.split text <> []
  /\ get_overlap_text text (-1) = ("the articles" : str)
  /\ (get_overlap_text text (-3) = []
      <-> (length (Py.split text) <= 3)%nat).
Proof.
  intros text.
  assert (Hwords : Py.split text <> []) by discriminate.
  split; [lia|]. split; [exact Hwords|].
  destruct (overlap_not_positive text (-1) ltac:(lia) Hwords) as [H _].
  split; [etransitivity; [exact H|reflexivity]|].
  exact (proj2 (proj2 (proj2 (overlap_not_positive text (-3) ltac:(lia)
                                Hwords)))).
Defined.

Section Buffer.

Variable md5 : str -> str.
Variable self : DocumentChunker.
Variable text : str.
Variable md : gmap str MetaValue.

(** 1 when the buffer holds something. *)
Let pending (st : LoopState) : nat :=
  if Py.nonempty (current_chunk st) then 1%nat else 0%nat.

Lemma step_count (st : LoopState) (u : str) (k : nat) :
  u <> [] ->
  (length (chunks st) + pending st <= k)%nat ->
  (length (chunks (step md5 self text md st u))
   + pending (step md5 self text md st u) <= S k)%nat.
Proof.
  intros Hu. unfold step, pending.
  destruct (Py.nonempty (current_chunk st)) eqn:Hne.
  - destruct (_ >? _); cbn [andb chunks current_chunk].
    + rewrite length_app. cbn [length].
      destruct (Py.nonempty (_ ++ _)); lia.
    + destruct (Py.nonempty (_ ++ _)); lia.
  - rewrite andb_false_r. cbn [chunks current_chunk].
    destruct (Py.nonempty u); lia.
Qed.

Lemma fold_count (sentences : list str) (st : LoopState) (k : nat) :
  Forall (fun u => u <> []) sentences ->
  (length (chunks st) + pending st <= k)%nat ->
  (length (chunks (fold_left (step md5 self text md) sentences st))
   + pending (fold_left (step md5 self text md) sentences st)
   <= k + length sentences)%nat.
Proof.
  intros Hall. revert st k.
  induction Hall as [|u l Hu _ IH]; intros st k H; simpl; [lia|].
  specialize (IH (step md5 self text md st u) (S k) (step_count st u k Hu H)).
  lia.
Qed.

Lemma flush_count (st : LoopState) :
  (length (flush md5 text md st) <= length (chunks st) + pending st)%nat.
Proof.
  unfold flush, pending.
  destruct (Py.nonempty (Py.strip (current_chunk st))) eqn:Hne; [|lia].
  apply strip_nonempty, nonempty_true in Hne. rewrite Hne, length_app.
  simpl. lia.
Qed.

(** The buffer, once a unit has gone in, holds a character that is not
    whitespace; so does every chunk closed. *)
Let lively (st : LoopState) : Prop :=
  has_text (current_chunk st)
  /\ Forall (fun c => has_text (content c)) (chunks st).

Lemma has_text_joined (a u : str) :
  has_text u -> has_text (a ++ (" " : str) ++ u).
Proof.
  intros H. unfold has_text. rewrite !List.Exists_app. right; right. exact H.
Qed.

Lemma step_lively (st : LoopState) (u : str) :
  has_text u ->
  (current_chunk st = [] \/ has_text (current_chunk st)) ->
  Forall (fun c => has_text (content c)) (chunks st) ->
  lively (step md5 self text md st u).
Proof.
  intros Hu Hcur Hall. unfold step, lively.
  destruct (Py.nonempty (current_chunk st)) eqn:Hne.
  - destruct Hcur as [Hcur|Hcur]; [rewrite Hcur in Hne; discriminate|].
    destruct (_ >? _); cbn [andb chunks current_chunk].
    + split; [now apply has_text_joined|].
      apply List.Forall_app. split; [exact Hall|].
      constructor; [|constructor]. now apply has_text_strip.
    + split; [now apply has_text_joined|exact Hall].
  - rewrite andb_false_r. cbn [chunks current_chunk]. now split.
Qed.

Lemma fold_lively (sentences : list str) (st : LoopState) :
  Forall has_text sentences -> lively st ->
  lively (fold_left (step md5 self text md) sentences st).
Proof.
  intros Hall. revert st.
  induction Hall as [|u l Hu _ IH]; intros st [Hcur Hchunks]; simpl;
    [now split|].
  apply IH. apply step_lively; [exact Hu|now right|exact Hchunks].
Qed.

Lemma flush_lively (st : LoopState) :
  lively st ->
  flush md5 text md st <> []
  /\ Forall (fun c => has_text (content c)) (flush md5 text md st).
Proof.
  intros [Hcur Hall]. unfold flush.
  pose proof (has_text_strip _ Hcur) as Hstrip.
  pose proof (has_text_nonempty _ Hstrip) as Hne.
  apply nonempty_true in Hne. rewrite Hne. split.
  - intros H. apply app_eq_nil in H as [_ H]. discriminate.
  - apply List.Forall_app. split; [exact Hall|].
    constructor; [exact Hstrip|constructor].
Qed.

(** Every chunk is the stripped form of something. *)
Lemma step_stripped (st : LoopState) (u : str) :
  Forall (fun c => clean_ends (content c)) (chunks st) ->
  Forall (fun c => clean_ends (content c))
    (chunks (step md5 self text md st u)).
Proof.
  intros Hall. unfold step. destruct (_ && _)%bool; cbn [chunks]; [|exact Hall].
  apply List.Forall_app. split; [exact Hall|].
  constructor; [apply strip_clean_ends|constructor].
Qed.

Lemma fold_stripped (sentences : list str) (st : LoopState) :
  Forall (fun c => clean_ends (content c)) (chunks st) ->
  Forall (fun c => clean_ends (content c))
    (chunks (fold_left (step md5 self text md) sentences st)).
Proof.
  revert st; induction sentences as [|u l IH]; intros st H; simpl; [exact H|].
  apply IH, step_stripped, H.
Qed.

Lemma flush_stripped (st : LoopState) :
  Forall (fun c => clean_ends (content c)) (chunks st) ->
  Forall (fun c => clean_ends (content c)) (flush md5 text md st).
Proof.
  intros Hall. unfold flush. destruct (Py.nonempty _); [|exact Hall].
  apply List.Forall_app. split; [exact Hall|].
  constructor; [apply strip_clean_ends|constructor].
Qed.

(** The units seen so far are in the buffer or in a chunk closed. *)
Let kept (seen : list str) (st : LoopState) : Prop :=
  forall u, In u seen ->
    Py.occurs u (current_chunk st)
    \/ exists c, In c (chunks st) /\ Py.occurs u (content c).

Lemma step_kept (seen : list str) (st : LoopState) (u : str) :
  Forall (fun v => v <> [] /\ clean_ends v) seen ->
  kept seen st -> kept (seen ++ [u]) (step md5 self text md st u).
Proof.
  intros Hshape Hkept v Hv.
  rewrite List.Forall_forall in Hshape.
  assert (Hnew : forall a, Py.occurs u (a ++ (" " : str) ++ u)).
  { intros a. apply occurs_app_r, occurs_app_r, occurs_refl. }
  unfold step.
  destruct (Py.nonempty (current_chunk st)) eqn:Hne.
  - destruct (_ >? _); cbn [andb chunks current_chunk].
    + apply in_app_or in Hv as [Hv|[<-|[]]]; [|left; apply Hnew].
      right. destruct (Hkept v Hv) as [Hocc|(c & Hc & Hocc)].
      * eexists. split; [apply in_or_app; right; left; reflexivity|].
        destruct (Hshape v Hv) as [Hv1 Hv2]. now apply occurs_strip.
      * exists c. split; [apply in_or_app; now left|exact Hocc].
    + apply in_app_or in Hv as [Hv|[<-|[]]]; [|left; apply Hnew].
      destruct (Hkept v Hv) as [Hocc|Hc]; [left|now right].
      now apply occurs_app_l.
  - rewrite andb_false_r. cbn [chunks current_chunk].
    apply in_app_or in Hv as [Hv|[<-|[]]]; [|left; apply occurs_refl].
    destruct (Hkept v Hv) as [Hocc|Hc]; [|now right].
    destruct (current_chunk st); [|discriminate].
    destruct Hocc as (l & r & Hocc). destruct (Hshape v Hv) as [Hv1 _].
    destruct l; [destruct v; [congruence|discriminate]|discriminate].
Qed.

Lemma fold_kept (sentences seen : list str) (st : LoopState) :
  Forall (fun v => v <> [] /\ clean_ends v) (seen ++ sentences) ->
  kept seen st ->
  kept (seen ++ sentences) (fold_left (step md5 self text md) sentences st).
Proof.
  revert seen st; induction sentences as [|u l IH]; intros seen st Hshape H;
    simpl.
  - now rewrite app_nil_r.
  - replace (seen ++ u :: l) with ((seen ++ [u]) ++ l) in *
      by now rewrite <- app_assoc.
    apply IH; [exact Hshape|]. apply step_kept; [|exact H].
    apply List.Forall_app in Hshape as [Hshape _].
    now apply List.Forall_app in Hshape as [Hshape _].
Qed.

Lemma flush_kept (seen : list str) (st : LoopState) :
  Forall (fun v => v <> [] /\ clean_ends v) seen ->
  kept seen st ->
  forall u, In u seen ->
    exists c, In c (flush md5 text md st) /\ Py.occurs u (content c).
Proof.
  intros Hshape Hkept u Hu.
  rewrite List.Forall_forall in Hshape. destruct (Hshape u Hu) as [Hu1 Hu2].
  unfold flush. destruct (Hkept u Hu) as [Hocc|(c & Hc & Hocc)].
  - pose proof (occurs_strip u _ Hu1 Hu2 Hocc) as Hstrip.
    assert (Hne : Py.nonempty (Py.strip (current_chunk st)) = true).
    { apply nonempty_true. intros Hnil. rewrite Hnil in Hstrip.
      destruct Hstrip as (l & r & Hs). destruct l; [|discriminate].
      destruct u; [congruence|discriminate]. }
    rewrite Hne. eexists.
    split; [apply in_or_app; right; left; reflexivity|exact Hstrip].
  - exists c. split; [|exact Hocc].
    destruct (Py.nonempty _); [apply in_or_app; now left|exact Hc].
Qed.

End Buffer.

Lemma units_shape (text : str) :
  Forall (fun v => v <> [] /\ clean_ends v) (split_into_sentences text).
Proof.
  eapply List.Forall_impl; [|apply units_wellformed].
  intros u (H1 & _ & H3). now split.
Qed.

Lemma units_have_text (text : str) :
  Forall has_text (split_into_sentences text).
Proof.
  eapply List.Forall_impl; [|apply units_wellformed].
  intros u (H1 & _ & [H3 _]). now apply clean_start_has_text.
Qed.

(** X5: [chunk_text] returns at most as many chunks as the cleaned text
    has sentence units. *)
Theorem chunk_count {U : Py.Unicode}
    (md5 : str -> str) (self : DocumentChunker) (text : str)
    (md : option (gmap str MetaValue)) :
  (length (chunk_text md5 self text md)
   <= length (split_into_sentences (clean_text text)))%nat.
Proof.
  unfold chunk_text.
  set (cleaned := clean_text text). set (m := default ∅ md).
  etransitivity; [apply flush_count|].
  apply (fold_count md5 self cleaned m (split_into_sentences cleaned)
           initial 0).
  - eapply List.Forall_impl; [|apply units_wellformed]. now intros u [H _].
  - simpl. lia.
Qed.

(** X6: a text with at least one sentence unit gives at least one chunk,
    and the content of every chunk holds a character that is not
    whitespace (so it is not empty) and neither begins nor ends with
    whitespace. *)
Theorem chunks_have_text {U : Py.Unicode}
    (md5 : str -> str) (self : DocumentChunker) (text : str)
    (md : option (gmap str MetaValue)) :
  (split_into_sentences (clean_text text) <> [] ->
   chunk_text md5 self text md <> [])
  /\ Forall (fun c => content c <> [] /\ has_text (content c)
                      /\ clean_ends (content c))
       (chunk_text md5 self text md).
Proof.
  unfold chunk_text.
  set (cleaned := clean_text text). set (m := default ∅ md).
  pose proof (units_have_text cleaned) as Hunits.
  assert (Hends : Forall (fun c => clean_ends (content c))
                    (flush md5 cleaned m
                       (fold_left (step md5 self cleaned m)
                          (split_into_sentences cleaned) initial))).
  { apply flush_stripped, fold_stripped. constructor. }
  destruct (split_into_sentences cleaned) as [|u units].
  - split; [congruence|constructor].
  - inversion Hunits as [|? ? Hu Hrest]; subst.
    destruct (flush_lively md5 cleaned m
                (fold_left (step md5 self cleaned m) (u :: units) initial))
      as [Hne Hall].
    { simpl. apply fold_lively; [exact Hrest|].
      apply step_lively; [exact Hu|now left|constructor]. }
    split; [intros _; exact Hne|].
    rewrite List.Forall_forall in *. intros c Hc.
    split; [apply has_text_nonempty; now apply Hall|].
    split; [now apply Hall|now apply Hends].
Qed.

(** X7: no sentence unit is lost: each unit of the cleaned text occurs, as
    it is, in the content of some chunk. *)
Theorem units_covered {U : Py.Unicode}
    (md5 : str -> str) (self : DocumentChunker) (text : str)
    (md : option (gmap str MetaValue)) (u : str) :
  In u (split_into_sentences (clean_text text)) ->
  exists c, In c (chunk_text md5 self text md) /\ Py.occurs u (content c).
Proof.
  intros Hu. unfold chunk_text.
  set (cleaned := clean_text text) in *. set (m := default ∅ md).
  apply (flush_kept md5 cleaned m (split_into_sentences cleaned));
    [apply units_shape| |exact Hu].
  apply (fold_kept md5 self cleaned m (split_into_sentences cleaned) []
           initial); [apply units_shape|].
  intros v [].
Qed.

Lemma units_covered_witness :
  let text : str := "File the articles. Pay the fee!" in
  In ("Pay the fee" : str) (split_into_sentences (clean_text text))
  /\ exists c, In c (chunk_text Demo.demo_md5 default_chunker text None)
               /\ Py.occurs "Pay the fee" (content c).
Proof.
  intros text.
  assert (Hin : In ("Pay the fee" : str)
                  (split_into_sentences (clean_text text))).
  { right. left. reflexivity. }
  split; [exact Hin|].
  exact (units_covered Demo.demo_md5 default_chunker text None _ Hin).
Defined.

(** *** Identifiers *)

Lemma to_uint_not_nil (n : nat) : Nat.to_uint n <> Decimal.Nil.
Proof.
  intros H. pose proof (DecimalNat.Unsigned.of_to n) as E.
  rewrite H in E. simpl in E. subst n. discriminate H.
Qed.

(** The decimal writing of a number determines it. *)
Lemma str_of_nat_inj (n m : nat) : Py.str_of_nat n = Py.str_of_nat m -> n = m.
Proof.
  unfold Py.str_of_nat, str_of_string. intros H.
  apply (f_equal (map ascii_of_N)) in H. rewrite !map_map in H.
  rewrite !(List.map_ext _ (fun a => a) ascii_N_embedding), !List.map_id in H.
  apply (f_equal string_of_list_ascii) in H.
  rewrite !string_of_list_ascii_of_string in H.
  apply (f_equal DecimalString.NilZero.uint_of_string) in H.
  rewrite !DecimalString.NilZero.usu in H by apply to_uint_not_nil.
  injection H as H. now apply DecimalNat.Unsigned.to_uint_inj.
Qed.

Lemma NoDup_map_injective {A B} (f : A -> B) (l : list A) :
  (forall x y, f x = f y -> x = y) -> List.NoDup l -> List.NoDup (map f l).
Proof.
  intros Hinj. induction 1 as [|x l Hx _ IH]; simpl; constructor; [|exact IH].
  intros Hin. apply in_map_iff in Hin as (y & Hxy & Hy).
  apply Hinj in Hxy. now subst.
Qed.

(** X21: the chunks of one document have pairwise distinct ids, so that no
    chunk overwrites another of the same document when they are stored
    under their ids. *)
Theorem chunk_ids_distinct {U : Py.Unicode}
    (md5 : str -> str) (self : DocumentChunker) (text : str)
    (md : option (gmap str MetaValue)) :
  List.NoDup (map id (chunk_text md5 self text md)).
Proof.
  destruct (ChunkerFacts.chunk_text_numbered md5 self text md) as [_ Hid].
  cbn zeta in Hid. rewrite Hid.
  apply NoDup_map_injective; [|apply List.seq_NoDup].
  intros i j H. unfold generate_chunk_id in H.
  apply app_inv_head in H. apply app_inv_head in H. apply app_inv_head in H.
  now apply str_of_nat_inj.
Qed.

End ChunkerMore.

(** ** Properties of retrieval and ingestion *)

Module IngestFacts.
Import Retrieval Chunker Ingest PyFacts.

#[local] Existing Instance Demo.demo_unicode.

(** X8: the filter handed to the index has the key [jurisdiction] exactly
    when a jurisdiction that is not the empty string is given, with that
    value, the same for [document_type], and no other key. *)
Theorem build_filter_lookup (jurisdiction document_type : option str) :
  build_filter jurisdiction document_type !! ("jurisdiction" : str)
  = (if truthy jurisdiction then MStr <$> jurisdiction else None)
  /\ build_filter jurisdiction document_type !! ("document_type" : str)
     = (if truthy document_type then MStr <$> document_type else None)
  /\ (forall key : str,
        key <> ("jurisdiction" : str) -> key <> ("document_type" : str) ->
        build_filter jurisdiction document_type !! key = None).
Proof.
  assert (Hkeys : ("document_type" : str) <> ("jurisdiction" : str))
    by discriminate.
  unfold build_filter, add_filter.
  destruct jurisdiction as [[|a j]|], document_type as [[|b d]|];
    cbn [truthy fmap option_fmap option_map];
    repeat split; intros;
    repeat first [ rewrite lookup_insert_eq
                 | rewrite lookup_insert_ne by congruence
                 | rewrite lookup_empty ];
    reflexivity.
Qed.

(** X9: when the embedding of the query comes back empty, or the index
    raises, [search] and [retrieve_relevant_chunks] return the empty list
    and raise nothing. *)
Theorem retrieval_failure_is_empty
    (generate_embedding : str -> list float)
    (index_query :
       list float -> Z -> gmap str MetaValue -> outcome (list IndexMatch))
    (query : str) (top_k : Z) (jurisdiction document_type : option str) :
  generate_embedding query = []
  \/ (exists e,
        index_query (generate_embedding query) top_k
          (build_filter jurisdiction document_type) = Raise e) ->
  search generate_embedding index_query query top_k
    (build_filter jurisdiction document_type) = []
  /\ retrieve_relevant_chunks generate_embedding index_query query top_k
       jurisdiction document_type = [].
Proof.
  intros H.
  assert (Hsearch : search generate_embedding index_query query top_k
                      (build_filter jurisdiction document_type) = []).
  { unfold search. destruct H as [H|[e H]].
    - now rewrite H.
    - destruct (generate_embedding query); [reflexivity|].
      now rewrite H. }
  split; [exact Hsearch|].
  unfold retrieve_relevant_chunks. cbn [try_except]. now rewrite Hsearch.
Qed.

Lemma retrieval_failure_is_empty_witness :
  let broken (v : list float) (k : Z) (f : gmap str MetaValue)
        : outcome (list IndexMatch) := Raise ConnectionError in
  (Demo.demo_embedding "llc" = []
   \/ exists e, broken (Demo.demo_embedding "llc") 5 (build_filter None None)
                = Raise e)
  /\ retrieve_relevant_chunks Demo.demo_embedding broken "llc" 5 None None = [].
Proof.
  intros broken.
  assert (H : Demo.demo_embedding "llc" = []
              \/ exists e, broken (Demo.demo_embedding "llc") 5
                             (build_filter None None) = Raise e).
  { right. now exists ConnectionError. }
  split; [exact H|].
  exact (proj2 (retrieval_failure_is_empty Demo.demo_embedding broken "llc" 5
                  None None H)).
Defined.

(** X10: the vectors sent to the index follow the chunks: their ids are a
    sublist of the ids of the chunks, in order, none has an empty embedding,
    and there are no more of them than chunks or embeddings; chunks beyond
    the end of the embedding list are left out. *)
Theorem vectors_follow_chunks
    (chunks : list DocumentChunk) (embeddings : list (list float)) :
  sublist (map vector_id (vectors_of chunks embeddings)) (map id chunks)
  /\ Forall (fun v => values v <> []) (vectors_of chunks embeddings)
  /\ (length (vectors_of chunks embeddings)
      <= Nat.min (length chunks) (length embeddings))%nat.
Proof.
  revert embeddings; induction chunks as [|c chunks IH]; intros embeddings.
  - simpl. split; [constructor|]. split; [constructor|lia].
  - destruct embeddings as [|e embeddings].
    + simpl. split; [apply sublist_nil_l|]. split; [constructor|lia].
    + destruct (IH embeddings) as (Hsub & Hall & Hlen).
      destruct e as [|x e]; simpl.
      * split; [now constructor|]. split; [exact Hall|lia].
      * split; [now constructor|]. split; [|lia].
        constructor; [discriminate|exact Hall].
Qed.

(** X11: a document without sentence content is reported as not processed:
    [process_document] returns [False] on a text of whitespace and sentence
    terminators only, whatever the embedding model and the index do. *)
Theorem blank_document_not_processed {U : Py.Unicode}
    (generate_embeddings_batch : list str -> list (list float))
    (upsert : list Vector -> outcome unit)
    (md5_hexdigest : str -> str)
    (document_content : str) (md : option (gmap str MetaValue)) :
  Forall blank document_content ->
  process_document generate_embeddings_batch upsert md5_hexdigest
    document_content md = false.
Proof.
  intros Hblank. unfold process_document, add_chunks, chunk_text.
  rewrite (ChunkerFacts.blank_text_has_no_unit _ Hblank). reflexivity.
Qed.

Lemma blank_document_not_processed_witness :
  Forall blank Demo.blank_page
  /\ process_document (fun texts => map (fun _ => [1%float]) texts)
       (fun _ => Ok tt) Demo.demo_md5 Demo.blank_page None = false.
Proof.
  assert (H : Forall blank Demo.blank_page).
  { repeat constructor; (now left) || (now right). }
  split; [exact H|].
  exact (blank_document_not_processed _ _ Demo.demo_md5 Demo.blank_page None H).
Defined.

Section Made.

Variable md5 : str -> str.
Variable self : DocumentChunker.
Variable text : str.
Variable md : gmap str MetaValue.

Let made (c : DocumentChunk) : Prop :=
  exists buffer index, c = make_chunk md5 text md buffer index.

Lemma step_made (st : LoopState) (u : str) :
  Forall made (chunks st) -> Forall made (chunks (step md5 self text md st u)).
Proof.
  intros H. unfold step. destruct (_ && _)%bool; cbn [chunks]; [|exact H].
  apply List.Forall_app. split; [exact H|].
  constructor; [|constructor]. now eexists _, _.
Qed.

Lemma fold_made (sentences : list str) (st : LoopState) :
  Forall made (chunks st) ->
  Forall made (chunks (fold_left (step md5 self text md) sentences st)).
Proof.
  revert st; induction sentences as [|u l IH]; intros st H; simpl; [exact H|].
  apply IH, step_made, H.
Qed.

Lemma flush_made (st : LoopState) :
  Forall made (chunks st) -> Forall made (flush md5 text md st).
Proof.
  intros H. unfold flush. destruct (Py.nonempty _); [|exact H].
  apply List.Forall_app. split; [exact H|].
  constructor; [|constructor]. now eexists _, _.
Qed.

End Made.

Lemma in_vectors_of (v : Vector) (chunks : list DocumentChunk)
    (embeddings : list (list float)) :
  In v (vectors_of chunks embeddings) ->
  exists c e, In c chunks /\ e <> []
    /\ v = {| vector_id := id c; values := e;
              vector_metadata := vector_metadata_of c |}.
Proof.
  revert embeddings; induction chunks as [|c chunks IH]; intros embeddings;
    [intros []|].
  destruct embeddings as [|e embeddings]; [intros []|].
  destruct e as [|x e]; simpl.
  - intros H. apply IH in H as (c' & e' & Hc & He & Hv).
    exists c', e'. split; [now right|now split].
  - intros [<-|H].
    + exists c, (x :: e). split; [now left|]. split; [discriminate|reflexivity].
    + apply IH in H as (c' & e' & Hc & He & Hv).
      exists c', e'. split; [now right|now split].
Qed.

(** X12: what is stored for a document reads back as its chunks: a vector
    built by [add_chunks] from the chunks of [chunk_text], once returned by
    the index as a match, gives through [search] a chunk with the id, the
    [chunk_index] and every metadata entry of a chunk of the document; its
    content is that chunk's content when the caller's metadata has no key
    [content], and the caller's value otherwise, a key of the caller's
    metadata taking precedence. *)
Theorem stored_chunk_read_back {U : Py.Unicode}
    (md5 : str -> str) (self : DocumentChunker) (text : str)
    (md : option (gmap str MetaValue)) (embeddings : list (list float))
    (v : Vector) (score : float) (position : nat) :
  In v (vectors_of (chunk_text md5 self text md) embeddings) ->
  let found := result_of_match (position, match_of v score) in
  exists c,
    In c (chunk_text md5 self text md)
    /\ id (chunk found) = id c
    /\ chunk_index (chunk found) = chunk_index c
    /\ (forall key value, metadata c !! key = Some value ->
                          metadata (chunk found) !! key = Some value)
    /\ (default ∅ md !! ("content" : str) = None ->
        content (chunk found) = content c)
    /\ (forall s, default ∅ md !! ("content" : str) = Some (MStr s) ->
                  content (chunk found) = s).
Proof.
  intros Hv found.
  apply in_vectors_of in Hv as (c & e & Hc & _ & ->).
  exists c. split; [exact Hc|].
  assert (Hmade : exists buffer index,
             c = make_chunk md5 (clean_text text) (default ∅ md) buffer index).
  { unfold chunk_text in Hc.
    pose proof (flush_made md5 (clean_text text) (default ∅ md) _
                  (fold_made md5 self (clean_text text) (default ∅ md)
                     (split_into_sentences (clean_text text)) initial
                     (List.Forall_nil _))) as H.
    rewrite List.Forall_forall in H. now apply H. }
  destruct Hmade as (buffer & index & ->).
  assert (Hkeys : ("chunk_index" : str) <> ("content" : str)) by discriminate.
  subst found.
  cbn [result_of_match match_of chunk id chunk_index metadata content
       match_id match_metadata vector_id vector_metadata make_chunk].
  unfold vector_metadata_of.
  cbn [metadata content source_url page_number chunk_index make_chunk].
  split; [reflexivity|]. split.
  { erewrite lookup_union_Some_l; [reflexivity|apply lookup_insert_eq]. }
  split.
  { intros key value Hkey. now apply lookup_union_Some_l. }
  split.
  - intros Hnone. unfold content_of.
    rewrite lookup_union_r by (rewrite lookup_insert_ne by exact Hkeys;
                               exact Hnone).
    now rewrite lookup_insert_eq.
  - intros s Hsome. unfold content_of.
    rewrite (lookup_union_Some_l _ _ _ (MStr s)); [reflexivity|].
    rewrite lookup_insert_ne by exact Hkeys. exact Hsome.
Qed.

Lemma stored_chunk_read_back_witness :
  let text : str := "File the articles. Pay the fee!" in
  let chunks := chunk_text Demo.demo_md5 default_chunker text None in
  let v := {| vector_id := "chunk_31000000_0"; values := [1%float];
              vector_metadata :=
                vector_metadata_of
                  (make_chunk Demo.demo_md5 (clean_text text) ∅
                     "File the articles Pay the fee" 0) |} in
  let found := result_of_match (0%nat, match_of v 0.9%float) in
  In v (vectors_of chunks [[1%float]])
  /\ exists c, In c chunks /\ id (chunk found) = id c
               /\ content (chunk found) = content c.
Proof.
  intros text chunks v found.
  assert (Hin : In v (vectors_of chunks [[1%float]])).
  { left. reflexivity. }
  split; [exact Hin|].
  destruct (stored_chunk_read_back Demo.demo_md5 default_chunker text None
              [[1%float]] v 0.9%float 0 Hin)
    as (c & Hc & Hid & _ & _ & Hcontent & _).
  exists c. split; [exact Hc|]. split; [exact Hid|].
  apply Hcontent. reflexivity.
Defined.

End IngestFacts.

(** ** More properties of the crawler *)

Module CrawlerMore.
Import Crawler Text PyFacts TextFacts.

#[local] Existing Instance Demo.demo_unicode.

#[local] Open Scope nat_scope.

(** *** Classification of a domain *)

Lemma startswith_app (p q s : str) :
  Py.startswith (p ++ q) s = true -> Py.startswith p s = true.
Proof.
  rewrite !startswith_spec. intros [r ->]. exists (q ++ r).
  now rewrite app_assoc.
Qed.

Lemma match_suffix_app (a b s : str) :
  Py.match_suffix (a ++ b) s = true -> Py.match_suffix b s = true.
Proof.
  unfold Py.match_suffix, Py.endswith. rewrite !andb_true_iff, rev_app_distr.
  intros [H1 H2]. split; [now apply startswith_app in H1|exact H2].
Qed.

Lemma match_suffix_longer (a b s : str) :
  Py.match_suffix b s = false -> Py.match_suffix (a ++ b) s = false.
Proof.
  intros H. destruct (Py.match_suffix (a ++ b) s) eqn:Hab; [|reflexivity].
  apply match_suffix_app in Hab. congruence.
Qed.

Lemma domain_type_cases (domain : str) :
  (first_domain_type legal_domains domain = Some ("government" : str)
   <-> Py.match_suffix ".gov" domain = true
       \/ Py.match_suffix ".state.us" domain = true)
  /\ first_domain_type legal_domains domain <> Some ("court" : str)
  /\ (forall source_type,
        first_domain_type legal_domains domain = Some source_type ->
        source_type = ("government" : str)
        \/ source_type = ("legal_portal" : str)).
Proof.
  unfold legal_domains. cbn [first_domain_type existsb].
  destruct (Py.match_suffix ".gov" domain) eqn:Hgov.
  - cbn [orb]. split; [split; auto|]. split; [discriminate|].
    intros t H. injection H as <-. now left.
  - rewrite (match_suffix_longer ".ca" ".gov" domain Hgov
             : Py.match_suffix ".ca.gov" domain = false).
    rewrite (match_suffix_longer ".courts" ".gov" domain Hgov
             : Py.match_suffix ".courts.gov" domain = false).
    rewrite (match_suffix_longer ".ftb.ca" ".gov" domain Hgov
             : Py.match_suffix ".ftb.ca.gov" domain = false).
    rewrite (match_suffix_longer ".sos.ca" ".gov" domain Hgov
             : Py.match_suffix ".sos.ca.gov" domain = false).
    rewrite (match_suffix_longer ".court" ".gov" domain Hgov
             : Py.match_suffix ".court.gov" domain = false).
    rewrite (match_suffix_longer ".uscourts" ".gov" domain Hgov
             : Py.match_suffix ".uscourts.gov" domain = false).
    rewrite (match_suffix_longer ".ca.courts" ".gov" domain Hgov
             : Py.match_suffix ".ca.courts.gov" domain = false).
    cbn [orb].
    destruct (Py.match_suffix ".state.us" domain); cbn [orb].
    + split; [split; auto|]. split; [discriminate|].
      intros t H. injection H as <-. now left.
    + split; [split; [|intros [H|H]; discriminate]|].
      * destruct (_ || _)%bool; discriminate.
      * split; [destruct (_ || _)%bool; discriminate|].
        intros t H. destruct (_ || _)%bool; [|discriminate].
        injection H as <-. now right.
Qed.

(** X13: the type of a domain (the lower-cased [netloc] that
    [is_legal_domain] matches against the patterns) is [government] exactly
    when it ends with [.gov] or [.state.us]; it is never [court], every
    court pattern ending with [.gov], which the government patterns take
    first; the only other type is [legal_portal]. *)
Theorem domain_types (domain : str) :
  (first_domain_type legal_domains domain = Some ("government" : str)
   <-> Py.match_suffix ".gov" domain = true
       \/ Py.match_suffix ".state.us" domain = true)
  /\ first_domain_type legal_domains domain <> Some ("court" : str)
  /\ (forall source_type,
        first_domain_type legal_domains domain = Some source_type ->
        source_type = ("government" : str)
        \/ source_type = ("legal_portal" : str)).
Proof. exact (domain_type_cases domain). Qed.

(** *** The fields of an accepted source *)

Lemma process_html_fields {U : Py.Unicode}
    (urlparse : str -> outcome ParseResult)
    (BeautifulSoup : str -> outcome Soup)
    (md5_hexdigest : str -> str) (now : Z) (url html : str)
    (source : LegalSource) :
  process_html urlparse BeautifulSoup md5_hexdigest now url html = Some source ->
  exists soup parsed,
    BeautifulSoup html = Ok soup
    /\ urlparse url = Ok parsed
    /\ Py.encodable (join_phrases (visible_text soup)) = true
    /\ is_legal_content (join_phrases (visible_text soup)) = true
    /\ source =
       {| url := url;
          title := match title_text soup with
                   | Some t => Py.strip t
                   | None => path parsed
                   end;
          content := join_phrases (visible_text soup);
          source_type :=
            default ("other" : str)
              (first_domain_type legal_domains (Py.lower (netloc parsed)));
          jurisdiction :=
            jurisdiction_of (Py.lower (netloc parsed))
              (join_phrases (visible_text soup));
          authority_level :=
            determine_authority_level url
              (default ("other" : str)
                 (first_domain_type legal_domains (Py.lower (netloc parsed))));
          last_crawled := now;
          content_hash := md5_hexdigest (join_phrases (visible_text soup));
          metadata :=
            <[("word_count" : str) :=
                MInt (Z.of_nat
                        (length (Py.split (join_phrases (visible_text soup)))))]>
            (<[("has_forms" : str) := MBool (has_form soup)]>
            (<[("has_tables" : str) := MBool (has_table soup)]>
            (<[("has_links" : str) := MInt (Z.of_nat (anchors soup))]>
            (<[("last_modified" : str) := last_modified soup]> ∅)))) |}.
Proof.
  unfold process_html, clean_content, is_legal_domain, extract_jurisdiction,
    content_digest.
  destruct (BeautifulSoup html) as [soup|e];
    cbn [mbind outcome_bind try_except]; [|discriminate].
  destruct (is_legal_content (join_phrases (visible_text soup))) eqn:Hlegal;
    cbn [negb]; [|discriminate].
  destruct (urlparse url) as [parsed|e] eqn:Hparse.
  - destruct (Py.encodable (join_phrases (visible_text soup))) eqn:Henc.
    + intros H. exists soup, parsed.
      split; [reflexivity|]. split; [reflexivity|]. split; [exact Henc|].
      split; [exact Hlegal|].
      destruct (title_text soup); cbn [mbind outcome_bind try_except] in H;
        injection H as <-; reflexivity.
    + destruct (title_text soup); cbn [mbind outcome_bind try_except];
        discriminate.
  - destruct (title_text soup); cbn [mbind outcome_bind try_except];
      discriminate.
Qed.

(** X14: an accepted source carries the address it was asked for, the
    cleaned text of the page as content, the digest of that content, and a
    content that passes the keyword test; its type is [government],
    [legal_portal] or [other], never [court], and its authority level is
    [high] for [government], [medium] for [legal_portal] and [low] for
    [other]. *)
Theorem accepted_source_fields {U : Py.Unicode}
    (urlparse : str -> outcome ParseResult)
    (BeautifulSoup : str -> outcome Soup)
    (md5_hexdigest : str -> str) (now : Z) (url html : str)
    (source : LegalSource) :
  process_html urlparse BeautifulSoup md5_hexdigest now url html = Some source ->
  Crawler.url source = url
  /\ clean_content BeautifulSoup html = Ok (content source)
  /\ content_hash source = md5_hexdigest (content source)
  /\ is_legal_content (content source) = true
  /\ ((source_type source = ("government" : str)
       /\ authority_level source = ("high" : str))
      \/ (source_type source = ("legal_portal" : str)
          /\ authority_level source = ("medium" : str))
      \/ (source_type source = ("other" : str)
          /\ authority_level source = ("low" : str))).
Proof.
  intros H.
  apply process_html_fields
    in H as (soup & parsed & Hsoup & _ & _ & Hlegal & ->).
  cbn [Crawler.url content content_hash source_type authority_level].
  split; [reflexivity|].
  split; [unfold clean_content; now rewrite Hsoup|].
  split; [reflexivity|]. split; [exact Hlegal|].
  destruct (domain_type_cases (Py.lower (netloc parsed))) as (_ & _ & Htypes).
  destruct (first_domain_type legal_domains (Py.lower (netloc parsed)))
    as [t|]; cbn [default from_option].
  - destruct (Htypes t eq_refl) as [->| ->]; [left|right; left];
      split; reflexivity.
  - right; right. split; reflexivity.
Qed.

Lemma accepted_source_fields_witness :
  let url : str := "https://www.courts.ca.gov/selfhelp" in
  let html : str := "court filing and small claims lawsuit" in
  exists source,
    Demo.demo_process_html url html = Some source
    /\ Crawler.url source = url
    /\ content_hash source = Demo.demo_md5 (content source).
Proof.
  intros url html.
  destruct (Demo.demo_process_html url html) as [source|] eqn:H.
  - exists source. split; [reflexivity|].
    destruct (accepted_source_fields _ _ _ _ _ _ _ H)
      as (Hurl & _ & Hhash & _).
    exact (conj Hurl Hhash).
  - vm_compute in H. discriminate H.
Defined.

(** X15: the content, its digest and the page metadata of an accepted
    source depend on the page only: the same page reached through two
    addresses gives the same content and the same [content_hash]. *)
Theorem same_page_same_hash {U : Py.Unicode}
    (urlparse : str -> outcome ParseResult)
    (BeautifulSoup : str -> outcome Soup)
    (md5_hexdigest : str -> str) (now : Z) (url1 url2 html : str)
    (source1 source2 : LegalSource) :
  process_html urlparse BeautifulSoup md5_hexdigest now url1 html
  = Some source1 ->
  process_html urlparse BeautifulSoup md5_hexdigest now url2 html
  = Some source2 ->
  content source1 = content source2
  /\ content_hash source1 = content_hash source2
  /\ metadata source1 = metadata source2.
Proof.
  intros H1 H2.
  apply process_html_fields in H1 as (soup1 & p1 & Hs1 & _ & _ & _ & ->).
  apply process_html_fields in H2 as (soup2 & p2 & Hs2 & _ & _ & _ & ->).
  rewrite Hs1 in Hs2. injection Hs2 as <-.
  repeat split.
Qed.

Lemma same_page_same_hash_witness :
  let html : str := "llc tax court" in
  exists source1 source2,
    Demo.demo_process_html "https://www.irs.gov/a" html = Some source1
    /\ Demo.demo_process_html "https://www.nolo.com/b" html = Some source2
    /\ content_hash source1 = content_hash source2.
Proof.
  intros html.
  destruct (Demo.demo_process_html "https://www.irs.gov/a" html)
    as [source1|] eqn:H1; [|discriminate H1].
  destruct (Demo.demo_process_html "https://www.nolo.com/b" html)
    as [source2|] eqn:H2; [|discriminate H2].
  exists source1, source2. split; [reflexivity|]. split; [reflexivity|].
  exact (proj1 (proj2 (same_page_same_hash _ _ _ _ _ _ _ _ _ H1 H2))).
Defined.

(** *** The cleaned content *)

Lemma splitlines_pieces (s cur : str) :
  Forall (fun c => Py.islinebreak c = false) cur ->
  Forall (Forall (fun c => Py.islinebreak c = false)) (Py.splitlines_go cur s).
Proof.
  revert cur.
  induction s as [s IH] using (induction_ltof1 _ (@length char)).
  unfold ltof in IH. intros cur Hcur.
  destruct s as [|c s]; simpl.
  - destruct cur; [constructor|].
    constructor; [now apply List.Forall_rev|constructor].
  - destruct (Py.islinebreak c) eqn:Hc.
    + constructor; [now apply List.Forall_rev|].
      destruct s as [|d s']; [apply IH; [simpl; lia|constructor]|].
      destruct (_ && _)%bool; (apply IH; [simpl; lia|constructor]).
    + apply IH; [simpl; lia|now constructor].
Qed.

Lemma split_double_space_pieces (P : char -> Prop) (s cur : str) :
  Forall P cur -> Forall P s ->
  Forall (Forall P) (Py.split_double_space cur s).
Proof.
  revert cur.
  induction s as [s IH] using (induction_ltof1 _ (@length char)).
  unfold ltof in IH. intros cur Hcur Hs.
  destruct s as [|c s]; simpl.
  - constructor; [now apply List.Forall_rev|constructor].
  - inversion Hs as [|? ? Hc Hs']; subst.
    destruct s as [|d s'].
    + apply IH; [simpl; lia|now constructor|constructor].
    + inversion Hs' as [|? ? Hd Hs'']; subst.
      destruct (_ && _)%bool.
      * constructor; [now apply List.Forall_rev|].
        apply IH; [simpl; lia|constructor|exact Hs''].
      * apply IH; [simpl; lia|now constructor|exact Hs'].
Qed.

Lemma Forall_join (P : char -> Prop) (sep : str) (l : list str) :
  Forall P sep -> Forall (Forall P) l -> Forall P (Py.join sep l).
Proof.
  intros Hsep. induction 1 as [|x l Hx Hl IH]; [constructor|].
  destruct l as [|y l]; [exact Hx|].
  change (Py.join sep (x :: y :: l)) with (x ++ sep ++ Py.join sep (y :: l)).
  apply List.Forall_app. split; [exact Hx|].
  apply List.Forall_app. split; [exact Hsep|exact IH].
Qed.

Lemma join_clean_ends (l : list str) :
  Forall (fun x => x <> [] /\ clean_ends x) l -> clean_ends (Py.join " " l).
Proof.
  induction 1 as [|x l [Hx [Hstart Hend]] Hl IH]; [now split|].
  destruct l as [|y l]; [now split|].
  change (Py.join " " (x :: y :: l))
    with (x ++ (" " : str) ++ Py.join " " (y :: l)).
  split.
  - destruct x; [congruence|exact Hstart].
  - rewrite !rev_app_distr.
    inversion Hl as [|? ? [Hy _] _]; subst.
    destruct IH as [_ IH].
    destruct (rev (Py.join " " (y :: l))) as [|c r] eqn:Hrev; [|exact IH].
    apply (f_equal (@rev char)) in Hrev. rewrite rev_involutive in Hrev.
    destruct l; simpl in Hrev; [congruence|].
    now destruct y.
Qed.

Lemma phrases_shape (text : str) :
  let lines := map Py.strip (Py.splitlines text) in
  let chunks :=
    flat_map (fun line => map Py.strip (Py.split_double_space [] line)) lines in
  Forall (fun x => Forall (fun c => Py.islinebreak c = false) x
                   /\ x <> [] /\ clean_ends x)
    (List.filter Py.nonempty chunks).
Proof.
  intros lines chunks.
  assert (Hlines : Forall (Forall (fun c => Py.islinebreak c = false)) lines).
  { unfold lines. pose proof (splitlines_pieces text [] (List.Forall_nil _)) as H.
    unfold Py.splitlines. induction H; simpl; constructor;
      [now apply Forall_strip|assumption]. }
  assert (Hchunks : Forall (fun x => Forall (fun c => Py.islinebreak c = false) x
                                     /\ clean_ends x) chunks).
  { unfold chunks. induction Hlines as [|line rest Hline _ IH]; simpl;
      [constructor|].
    apply List.Forall_app. split; [|exact IH].
    pose proof (split_double_space_pieces _ line [] (List.Forall_nil _) Hline)
      as Hpieces.
    induction Hpieces; simpl; constructor; [|assumption].
    split; [now apply Forall_strip|apply strip_clean_ends]. }
  induction Hchunks as [|x rest [Hx Hends] _ IH]; simpl; [constructor|].
  destruct (Py.nonempty x) eqn:Hne; [|exact IH].
  constructor; [|exact IH].
  split; [exact Hx|]. split; [now apply nonempty_true|exact Hends].
Qed.

(** X16: the cleaned content of a page is a single line: it holds none of
    the line boundaries of [str.splitlines] (the Unicode ones included),
    and it neither begins nor ends with a whitespace character. *)
Theorem clean_content_shape
    (BeautifulSoup : str -> outcome Soup) (html content : str) :
  clean_content BeautifulSoup html = Ok content ->
  Forall (fun c => Py.islinebreak c = false) content /\ clean_ends content.
Proof.
  unfold clean_content.
  destruct (BeautifulSoup html) as [soup|e]; cbn [mbind outcome_bind];
    [|discriminate].
  intros H. injection H as <-. unfold join_phrases.
  pose proof (phrases_shape (visible_text soup)) as Hshape. cbn zeta in Hshape.
  split.
  - apply Forall_join; [repeat constructor|].
    eapply List.Forall_impl; [|exact Hshape]. now intros x [H _].
  - apply join_clean_ends.
    eapply List.Forall_impl; [|exact Hshape]. now intros x [_ H].
Qed.

Lemma clean_content_shape_witness :
  let page (html : str) : outcome Soup :=
    Ok (Demo.plain_soup html []) in
  let html : str :=
    [0xa0%N] ++ ("Filing   fees" : str) ++ [0x85%N] ++ ("  and taxes" : str)
    ++ [0x3000%N; 10%N] in
  clean_content page html = Ok ("Filing fees and taxes" : str)
  /\ clean_ends ("Filing fees and taxes" : str).
Proof.
  intros page html.
  assert (H : clean_content page html = Ok ("Filing fees and taxes" : str))
    by reflexivity.
  split; [exact H|].
  exact (proj2 (clean_content_shape page html _ H)).
Defined.

(** *** Runs of the crawl loop *)

Section Loop.

Context {U : Py.Unicode}.

Variable urlparse : str -> outcome ParseResult.
Variable BeautifulSoup : str -> outcome Soup.
Variable urljoin : str -> str -> outcome str.
Variable md5_hexdigest : str -> str.
Variable now : Z.
Variable session_get : nat -> str -> outcome HttpResponse.
Variable playwright_content : nat -> str -> outcome str.

(** An address on a legal domain. *)
Let legal (address : str) : Prop :=
  exists source_type,
    is_legal_domain urlparse address = Ok (Some source_type)
    /\ (source_type = ("government" : str)
        \/ source_type = ("legal_portal" : str)).

Lemma legal_links_legal (base_url : str) (links found : list str) :
  legal_links urlparse urljoin base_url links = Ok found ->
  Forall legal found /\ (length found <= length links)%nat.
Proof.
  revert found; induction links as [|href rest IH]; intros found; simpl.
  - intros H. injection H as <-. split; [constructor|simpl; lia].
  - destruct (urljoin base_url href) as [full_url|e];
      cbn [mbind outcome_bind]; [|discriminate].
    destruct (is_legal_domain urlparse full_url) as [kind|e] eqn:Hkind;
      cbn [mbind outcome_bind]; [|discriminate].
    destruct (legal_links urlparse urljoin base_url rest) as [kept|e];
      cbn [mbind outcome_bind]; [|discriminate].
    destruct (IH kept eq_refl) as [Hall Hlen].
    intros H. injection H as <-.
    destruct kind as [t|]; simpl; [|split; [exact Hall|lia]].
    split; [|lia]. constructor; [|exact Hall].
    exists t. split; [exact Hkind|].
    unfold is_legal_domain in Hkind.
    destruct (urlparse full_url) as [parsed|e]; cbn [mbind outcome_bind] in Hkind;
      [|discriminate].
    injection Hkind as Hkind.
    destruct (domain_type_cases (Py.lower (netloc parsed)))
      as (_ & _ & Htypes).
    now apply Htypes.
Qed.

Lemma enqueue_links_from (new_urls : list str) (st : CrawlState) :
  exists added,
    enqueued (enqueue_links new_urls st) = enqueued st ++ added
    /\ incl added new_urls.
Proof.
  revert st; induction new_urls as [|u rest IH]; intros st; simpl.
  - exists []. split; [now rewrite app_nil_r|apply incl_refl].
  - destruct (_ && _)%bool.
    + match goal with |- context [enqueue_links rest ?s] =>
        destruct (IH s) as (added & Heq & Hincl) end.
      exists (u :: added). cbn [enqueued] in Heq.
      split; [now rewrite Heq, <- app_assoc|].
      intros x [<-|Hx]; [now left|right; now apply Hincl].
    + destruct (IH st) as (added & Heq & Hincl).
      exists added. split; [exact Heq|]. intros x Hx. right. now apply Hincl.
Qed.

Lemma handle_enqueues_legal (st st' : CrawlState) result :
  handle_result urlparse BeautifulSoup urljoin st result = Ok st' ->
  exists added, enqueued st' = enqueued st ++ added /\ Forall legal added.
Proof.
  unfold handle_result.
  destruct result as [[source|]|e]; intros H;
    try (injection H as <-; exists []; split;
         [now rewrite app_nil_r|constructor]).
  destruct (_ <? _).
  - unfold extract_links_from_content in H.
    destruct (BeautifulSoup (content source)) as [soup|e];
      cbn [mbind outcome_bind] in H; [|discriminate].
    destruct (legal_links urlparse urljoin (url source) (hrefs soup))
      as [new_urls|e] eqn:Hlinks; cbn [mbind outcome_bind] in H; [|discriminate].
    injection H as <-.
    match goal with |- context [enqueue_links new_urls ?s] =>
      destruct (enqueue_links_from new_urls s) as (added & Heq & Hincl) end.
    exists added. split; [exact Heq|].
    apply legal_links_legal in Hlinks as [Hall _].
    rewrite List.Forall_forall in *. intros x Hx. apply Hall, Hincl, Hx.
  - injection H as <-. exists []. split; [now rewrite app_nil_r|constructor].
Qed.

Lemma handle_all_enqueues_legal results (st st' : CrawlState) :
  handle_results urlparse BeautifulSoup urljoin st results = Ok st' ->
  exists added, enqueued st' = enqueued st ++ added /\ Forall legal added.
Proof.
  revert st; induction results as [|r rest IH]; intros st H.
  - injection H as <-. exists []. split; [now rewrite app_nil_r|constructor].
  - cbn [handle_results] in H.
    destruct (handle_result urlparse BeautifulSoup urljoin st r) as [st1|e]
      eqn:H1; cbn [mbind outcome_bind] in H; [|discriminate].
    apply handle_enqueues_legal in H1 as (a1 & E1 & L1).
    apply IH in H as (a2 & E2 & L2).
    exists (a1 ++ a2). split; [now rewrite E2, E1, app_assoc|].
    apply List.Forall_app. now split.
Qed.

(** X17: only addresses on a legal domain are put on the queue after the
    seeds: each of them is classified [government] or [legal_portal] by
    [is_legal_domain]. *)
Theorem enqueued_links_are_legal
    (seed_urls : list str) (visited : gset str) (st : CrawlState) :
  discover_run urlparse BeautifulSoup urljoin md5_hexdigest now session_get
    playwright_content seed_urls visited = Some (Ok st) ->
  exists found,
    enqueued st = seed_urls ++ found
    /\ Forall (fun address =>
                 exists source_type,
                   is_legal_domain urlparse address = Ok (Some source_type)
                   /\ (source_type = ("government" : str)
                       \/ source_type = ("legal_portal" : str)))
         found.
Proof.
  unfold discover_run. intros Hrun.
  apply (CrawlerFacts.run_preserves urlparse BeautifulSoup urljoin
           md5_hexdigest now session_get playwright_content
           (fun st => exists found,
                enqueued st = seed_urls ++ found /\ Forall legal found))
    in Hrun as [H _].
  - exact H.
  - intros st0 st1 _ (found & Heq & Hall) Hbatch.
    unfold run_batch in Hbatch.
    apply handle_all_enqueues_legal in Hbatch as (added & Hadd & Hlegal).
    cbn [enqueued] in Hadd.
    exists (found ++ added). split; [now rewrite Hadd, Heq, app_assoc|].
    apply List.Forall_app. now split.
  - exists []. split; [now rewrite app_nil_r|constructor].
Qed.

(** X18: one batch fetches at most ten addresses and adds at most ten
    sources; after it the queue holds at most fifty addresses, or ten fewer
    than before if that is more; the set of visited addresses only grows. *)
Theorem batch_bounds (st st' : CrawlState) :
  run_batch urlparse BeautifulSoup urljoin md5_hexdigest now session_get
    playwright_content st = Ok st' ->
  (length (dispatched st') <= length (dispatched st) + 10
   /\ crawled_count st <= crawled_count st' <= crawled_count st + 10
   /\ length (urls_to_crawl st')
      <= Nat.max (length (urls_to_crawl st) - 10) 50
   /\ crawled_urls st ⊆ crawled_urls st')%nat.
Proof.
  intros H.
  destruct (CrawlerFacts.batch_grows _ _ _ _ _ _ _ _ _ H)
    as (added & _ & C & P & _ & _ & V & _ & _ & L & _ & Hten).
  cbn zeta in C, P, Hten.
  split. { rewrite P, length_app, List.length_firstn. lia. }
  split. { rewrite C. lia. }
  split. { rewrite List.length_skipn in L. exact L. }
  rewrite V. set_solver.
Qed.

(** The address of a source is the address fetched. *)
Lemma crawl_url_address (tick : nat) (address : str) (use_playwright : bool)
    (source : LegalSource) :
  crawl_url urlparse BeautifulSoup md5_hexdigest now session_get
    playwright_content tick address use_playwright = Some source ->
  url source = address.
Proof.
  unfold crawl_url, crawl_with_aiohttp, crawl_with_playwright.
  destruct (urlparse address) as [parsed|e] eqn:Hparse;
    cbn [mbind outcome_bind try_except]; [|discriminate].
  destruct use_playwright; cbn [try_except].
  - destruct (playwright_content tick address) as [html|e];
      cbn [mbind outcome_bind try_except]; [|discriminate].
    intros H.
    now apply process_html_fields in H as (? & ? & _ & _ & _ & _ & ->).
  - destruct (session_get tick address) as [response|e];
      cbn [mbind outcome_bind try_except]; [|discriminate].
    destruct (negb _); cbn [try_except]; [discriminate|].
    destruct (text response) as [html|e];
      cbn [mbind outcome_bind try_except]; [|discriminate].
    intros H.
    now apply process_html_fields in H as (? & ? & _ & _ & _ & _ & ->).
Qed.

Lemma sources_follow_tasks (first_tick : nat) (addresses : list str) :
  sublist
    (map url
       (omap (fun task : nat * str =>
                crawl_url urlparse BeautifulSoup md5_hexdigest now session_get
                  playwright_content (fst task) (snd task) false)
             (enumerate first_tick addresses)))
    addresses.
Proof.
  revert first_tick; induction addresses as [|a rest IH]; intros first_tick;
    [constructor|].
  cbn [enumerate omap list_omap fst snd].
  destruct (crawl_url _ _ _ _ _ _ first_tick a false) as [source|] eqn:H.
  - cbn [map]. rewrite (crawl_url_address _ _ _ _ H).
    constructor. apply IH.
  - constructor. apply IH.
Qed.

(** X19: the sources come back in the order of the fetches: their
    addresses are a sublist of the addresses fetched, which are themselves
    the first addresses put on the queue; so there are never more sources
    than fetches. *)
Theorem sources_in_fetch_order
    (seed_urls : list str) (visited : gset str) (st : CrawlState) :
  discover_run urlparse BeautifulSoup urljoin md5_hexdigest now session_get
    playwright_content seed_urls visited = Some (Ok st) ->
  sublist (map url (discovered_sources st)) (dispatched st)
  /\ dispatched st `prefix_of` enqueued st
  /\ (length (discovered_sources st) <= length (dispatched st))%nat.
Proof.
  intros Hrun.
  destruct (CrawlerFacts.discover_run_ends urlparse BeautifulSoup urljoin
              md5_hexdigest now session_get playwright_content seed_urls
              visited) as (r & Hr & Hend).
  rewrite Hrun in Hr. injection Hr as <-.
  destruct Hend as ((J1 & _ & _ & J4 & _) & _).
  assert (Hsub : sublist (map url (discovered_sources st)) (dispatched st)).
  { rewrite J1. apply sources_follow_tasks. }
  split; [exact Hsub|]. split; [now exists (urls_to_crawl st)|].
  apply sublist_length in Hsub. now rewrite length_map in Hsub.
Qed.

(** X20: when no fetch gives a source (the network is down, or no page
    passes the keyword test), the run fetches every seed once, in the order
    given, returns no source and leaves the set of visited addresses as it
    was. *)
Theorem run_without_sources (seed_urls : list str) (visited : gset str) :
  (forall tick address,
     crawl_url urlparse BeautifulSoup md5_hexdigest now session_get
       playwright_content tick address false = None) ->
  exists st,
    discover_run urlparse BeautifulSoup urljoin md5_hexdigest now session_get
      playwright_content seed_urls visited = Some (Ok st)
    /\ discovered_sources st = []
    /\ dispatched st = seed_urls
    /\ crawled_urls st = visited.
Proof.
  intros Hnone.
  assert (Hempty : forall n l,
             omap (fun task : nat * str =>
                     crawl_url urlparse BeautifulSoup md5_hexdigest now
                       session_get playwright_content (fst task) (snd task)
                       false)
                  (enumerate n l) = []).
  { intros n l. revert n. induction l as [|a l IH]; intros n; [reflexivity|].
    cbn [enumerate omap list_omap fst snd]. rewrite Hnone. apply IH. }
  destruct (CrawlerFacts.discover_run_ends urlparse BeautifulSoup urljoin
              md5_hexdigest now session_get playwright_content seed_urls
              visited) as (r & Hr & Hend).
  destruct r as [st|e].
  2: { destruct Hend as (source & tick & u & Hc & _).
       rewrite Hnone in Hc. discriminate. }
  exists st. split; [exact Hr|].
  destruct Hend as ((J1 & J2 & _ & J4 & _) & Hloop).
  rewrite Hempty in J1. rewrite J1 in J2. simpl in J2.
  assert (Hqueue : urls_to_crawl st = []).
  { unfold loop_condition in Hloop. rewrite J2 in Hloop.
    destruct (urls_to_crawl st); [reflexivity|discriminate]. }
  unfold discover_run in Hr.
  apply (CrawlerFacts.run_preserves urlparse BeautifulSoup urljoin
           md5_hexdigest now session_get playwright_content
           (fun st => enqueued st = seed_urls /\ crawled_urls st = visited))
    in Hr as [[He Hv] _].
  - split; [exact J1|]. split; [|exact Hv].
    rewrite J4, Hqueue, app_nil_r in He. exact He.
  - intros st0 st1 _ [He Hv] Hbatch.
    destruct (CrawlerFacts.batch_grows _ _ _ _ _ _ _ _ _ Hbatch)
      as (added & _ & _ & _ & _ & E & V & _ & _ & _ & Hno & _).
    cbn zeta in Hno. rewrite (Hno (Hempty _ _)) in E, V.
    rewrite app_nil_r in E. split; [now rewrite E|].
    rewrite V, Hv. apply union_empty_r_L.
  - now split.
Qed.

End Loop.

Lemma run_without_sources_witness :
  let down (tick : nat) (address : str) : outcome HttpResponse :=
    Raise ConnectionError in
  let seeds : list str :=
    [ "https://www.irs.gov/" : str; "https://www.sba.gov/" : str ] in
  (forall tick address,
     crawl_url Demo.demo_urlparse Demo.demo_soup Demo.demo_md5 0 down
       Demo.demo_playwright tick address false = None)
  /\ exists st,
       discover_run Demo.demo_urlparse Demo.demo_soup Demo.demo_urljoin
         Demo.demo_md5 0 down Demo.demo_playwright seeds ∅ = Some (Ok st)
       /\ dispatched st = seeds.
Proof.
  intros down seeds.
  assert (H : forall tick address,
             crawl_url Demo.demo_urlparse Demo.demo_soup Demo.demo_md5 0 down
               Demo.demo_playwright tick address false = None).
  { intros tick address.
    now apply (CrawlerFacts.crawl_transport_error _ _ _ _ down _ tick address
                 ConnectionError). }
  split; [exact H|].
  destruct (run_without_sources Demo.demo_urlparse Demo.demo_soup
              Demo.demo_urljoin Demo.demo_md5 0 down Demo.demo_playwright
              seeds ∅ H) as (st & Hrun & _ & Hdispatched & _).
  exists st. split; [exact Hrun|exact Hdispatched].
Defined.

(** *** Runs on the demonstration pages *)

Lemma self_link_run :
  exists st,
    Demo.demo_discover Demo.self_page_html "" [("https://a.gov/" : str)]
    = Some (Ok st).
Proof. vm_compute. eexists. reflexivity. Qed.

Lemma enqueued_links_are_legal_witness :
  exists st,
    Demo.demo_discover Demo.self_page_html "" [("https://a.gov/" : str)]
    = Some (Ok st)
    /\ exists found,
         enqueued st = [("https://a.gov/" : str)] ++ found
         /\ Forall (fun address =>
                      exists source_type,
                        is_legal_domain Demo.demo_urlparse address
                        = Ok (Some source_type)
                        /\ (source_type = ("government" : str)
                            \/ source_type = ("legal_portal" : str)))
              found.
Proof.
  destruct self_link_run as [st Hrun]. exists st. split; [exact Hrun|].
  exact (enqueued_links_are_legal _ _ _ _ _ _ _ _ _ _ Hrun).
Defined.

Lemma sources_in_fetch_order_witness :
  exists st,
    Demo.demo_discover Demo.self_page_html "" [("https://a.gov/" : str)]
    = Some (Ok st)
    /\ sublist (map url (discovered_sources st)) (dispatched st).
Proof.
  destruct self_link_run as [st Hrun]. exists st. split; [exact Hrun|].
  exact (proj1 (sources_in_fetch_order _ _ _ _ _ _ _ _ _ _ Hrun)).
Defined.

Lemma batch_bounds_witness :
  exists st',
    run_batch Demo.demo_urlparse Demo.demo_soup Demo.demo_urljoin
      Demo.demo_md5 0 (Demo.demo_get Demo.self_page_html "")
      Demo.demo_playwright (seeded [("https://a.gov/" : str)] ∅) = Ok st'
    /\ (length (urls_to_crawl st') <= 50)%nat.
Proof.
  assert (H : exists st',
             run_batch Demo.demo_urlparse Demo.demo_soup Demo.demo_urljoin
               Demo.demo_md5 0 (Demo.demo_get Demo.self_page_html "")
               Demo.demo_playwright (seeded [("https://a.gov/" : str)] ∅)
             = Ok st').
  { vm_compute. eexists. reflexivity. }
  destruct H as [st' H]. exists st'. split; [exact H|].
  destruct (batch_bounds _ _ _ _ _ _ _ _ _ H) as (_ & _ & Hq & _).
  exact Hq.
Defined.

(** *** The keyword test *)

Section Lower.

Context {U : Py.Unicode}.

Lemma lower_in_app (before x y after : str) :
  Py.lower_in before (x ++ y) after
  = Py.lower_in before x (y ++ after)
    ++ Py.lower_in (rev x ++ before) y after.
Proof.
  revert before; induction x as [|c x IH]; intros before; [reflexivity|].
  cbn [app Py.lower_in rev]. rewrite IH, <- !app_assoc. reflexivity.
Qed.

Lemma alike_refl (s : str) : Forall2 alike s s.
Proof. induction s; constructor; [now left|assumption]. Qed.

(** The context changes the lower-casing of a stretch in its small sigmas
    only. *)
Lemma lower_in_alike (before before' s after after' : str) :
  Forall2 alike (Py.lower_in before s after) (Py.lower_in before' s after').
Proof.
  revert before before'; induction s as [|c s IH]; intros before before';
    [constructor|].
  cbn [Py.lower_in]. apply Forall2_app; [|apply IH].
  unfold Py.lower_piece. destruct (N.eqb c Py.capital_sigma).
  - constructor; [|constructor]. right.
    destruct (Py.final_sigma before _), (Py.final_sigma before' _);
      split; reflexivity.
  - apply alike_refl.
Qed.

Lemma alike_eq (k k' : str) :
  Forall (fun c => issigma c = false) k -> Forall2 alike k k' -> k' = k.
Proof.
  intros Hk H. induction H as [|x y k k' [Hxy|[Hx _]] _ IH];
    inversion Hk; subst; [reflexivity| |congruence].
  f_equal. now apply IH.
Qed.

Lemma occurs_alike (k s s' : str) :
  Forall (fun c => issigma c = false) k ->
  Forall2 alike s s' -> Py.occurs k s -> Py.occurs k s'.
Proof.
  intros Hk H (l & r & ->).
  apply List.Forall2_app_inv_l in H as (l' & rest & _ & H & ->).
  apply List.Forall2_app_inv_l in H as (k' & r' & Hkk & _ & ->).
  rewrite (alike_eq k k' Hk Hkk). now exists l', r'.
Qed.

(** A text without a small sigma that occurs in the lower-cased content
    occurs in the lower-cased text around it. *)
Lemma occurs_nocase_inside (k content before after : str) :
  Forall (fun c => issigma c = false) k ->
  Py.occurs_nocase k content ->
  Py.occurs_nocase k (before ++ content ++ after).
Proof.
  unfold Py.occurs_nocase, Py.lower. intros Hk Hocc.
  rewrite lower_in_app, lower_in_app.
  apply occurs_app_r, occurs_app_l.
  eapply occurs_alike; [exact Hk|apply lower_in_alike|exact Hocc].
Qed.

End Lower.

Lemma legal_keywords_plain :
  Forall (Forall (fun c => issigma c = false)) legal_keywords.
Proof.
  assert (H : forallb (forallb (fun c => negb (issigma c))) legal_keywords
              = true) by reflexivity.
  rewrite forallb_forall in H. apply List.Forall_forall. intros k Hk.
  specialize (H k Hk). rewrite forallb_forall in H.
  apply List.Forall_forall. intros c Hc. specialize (H c Hc).
  now destruct (issigma c).
Qed.

(** X22: text around a page never takes it out: when a content passes the
    keyword test, so does every content in which it occurs, whatever the
    characters around it do to its lower-casing. *)
Theorem keyword_test_monotone {U : Py.Unicode} (content before after : str) :
  is_legal_content content = true ->
  is_legal_content (before ++ content ++ after) = true.
Proof.
  rewrite !CrawlerFacts.is_legal_content_spec.
  intros (k1 & k2 & k3 & H1 & H2 & H3 & D12 & D13 & D23 & O1 & O2 & O3).
  pose proof legal_keywords_plain as Hplain.
  rewrite List.Forall_forall in Hplain.
  exists k1, k2, k3.
  repeat split; try assumption; apply occurs_nocase_inside; auto.
Qed.

Lemma keyword_test_monotone_witness :
  is_legal_content "llc tax court" = true
  /\ is_legal_content
       (("<h1>" : str) ++ ("llc tax court" : str) ++ ("</h1>" : str)) = true.
Proof.
  assert (H : is_legal_content "llc tax court" = true) by reflexivity.
  split; [exact H|].
  exact (keyword_test_monotone "llc tax court" "<h1>" "</h1>" H).
Defined.

Lemma keyword_inside {U : Py.Unicode} (inner outer content : str) :
  Py.occurs inner outer -> Py.occurs_nocase outer content ->
  Py.occurs_nocase inner content.
Proof.
  intros (a & b & ->) (l & r & H). exists (l ++ a), (b ++ r).
  rewrite H, <- !app_assoc. reflexivity.
Qed.

(** X23: keywords that lie inside one another count separately, so that
    two phrases can meet the threshold of three: a content with
    "incorporation" (which holds "corporation") and "franchise tax" (which
    holds "tax") passes the test. *)
Theorem two_phrases_pass {U : Py.Unicode} (content : str) :
  Py.occurs_nocase "incorporation" content ->
  Py.occurs_nocase "franchise tax" content ->
  is_legal_content content = true.
Proof.
  intros Hinc Htax. apply CrawlerFacts.is_legal_content_spec.
  exists ("incorporation" : str), ("corporation" : str), ("tax" : str).
  split; [now left|]. split; [right; right; now left|].
  split; [do 15 right; now left|].
  split; [discriminate|]. split; [discriminate|]. split; [discriminate|].
  split; [exact Hinc|]. split.
  - apply (keyword_inside _ "incorporation"); [|exact Hinc].
    now exists ("in" : str), [].
  - apply (keyword_inside _ "franchise tax"); [|exact Htax].
    now exists ("franchise " : str), [].
Qed.

Lemma two_phrases_pass_witness :
  let content : str := "Articles of Incorporation and the Franchise Tax" in
  Py.occurs_nocase "incorporation" content
  /\ Py.occurs_nocase "franchise tax" content
  /\ is_legal_content content = true.
Proof.
  intros content.
  assert (H1 : Py.occurs_nocase "incorporation" content).
  { now exists ("articles of " : str), (" and the franchise tax" : str). }
  assert (H2 : Py.occurs_nocase "franchise tax" content).
  { now exists ("articles of incorporation and the " : str), []. }
  split; [exact H1|]. split; [exact H2|].
  exact (two_phrases_pass content H1 H2).
Defined.

End CrawlerMore.

(** ** Properties of [crawl_legal_sources] *)

Module CrawlAllFacts.
Import Crawler CrawlAll.

#[local] Existing Instance Demo.demo_unicode.

#[local] Open Scope nat_scope.

Lemma lookup_unknown (jurisdiction : str) :
  ~ In jurisdiction default_jurisdictions ->
  lookup_seeds seed_urls jurisdiction = None.
Proof.
  intros H. unfold seed_urls. cbn [lookup_seeds].
  repeat (destruct (decide _) as [<-|_];
          [exfalso; apply H; simpl; tauto|]).
  reflexivity.
Qed.

Section World.

Context {U : Py.Unicode}.

Variable urlparse : str -> outcome ParseResult.
Variable BeautifulSoup : str -> outcome Soup.
Variable urljoin : str -> str -> outcome str.
Variable md5_hexdigest : str -> str.
Variable now : Z.
Variable session_get : nat -> nat -> str -> outcome HttpResponse.
Variable playwright_content : nat -> nat -> str -> outcome str.

Lemma crawl_each_unknown (jurisdictions : list str)
    (all_sources : list LegalSource) (visited : gset str) (runs : nat) :
  Forall (fun j => ~ In j default_jurisdictions) jurisdictions ->
  crawl_each urlparse BeautifulSoup urljoin md5_hexdigest now session_get
    playwright_content jurisdictions all_sources visited runs
  = Some (Ok (all_sources, visited)).
Proof.
  induction 1 as [|j rest Hj _ IH]; [reflexivity|].
  cbn [crawl_each]. now rewrite (lookup_unknown j Hj).
Qed.

(** X24: a jurisdiction that is not one of the four names of the seed table
    is passed over without a fetch and without an error; so the caller
    [_crawl_legal_sources], which hands over the jurisdiction of the
    request as it is, gets no source for a name such as "California, USA". *)
Theorem unknown_jurisdictions_skipped
    (jurisdictions : list str) (visited : gset str) :
  Forall (fun j => ~ In j default_jurisdictions) jurisdictions ->
  crawl_legal_sources urlparse BeautifulSoup urljoin md5_hexdigest now
    session_get playwright_content (Some jurisdictions) visited
  = Some (Ok ([], visited))
  /\ (forall c j, jurisdictions = [c :: j] ->
        ai_crawl_legal_sources urlparse BeautifulSoup urljoin md5_hexdigest
          now session_get playwright_content (Some (c :: j)) = Some []).
Proof.
  intros H. split.
  - unfold crawl_legal_sources. now apply crawl_each_unknown.
  - intros c j ->. unfold ai_crawl_legal_sources, crawl_legal_sources.
    cbn [default from_option]. now rewrite crawl_each_unknown.
Qed.

Lemma crawl_each_bound (jurisdictions : list str)
    (all_sources : list LegalSource) (visited : gset str) (runs : nat) :
  exists r,
    crawl_each urlparse BeautifulSoup urljoin md5_hexdigest now session_get
      playwright_content jurisdictions all_sources visited runs = Some r
    /\ match r with
       | Ok (sources, visited') =>
           length sources
           <= length all_sources + (max_urls + 9) * length jurisdictions
           /\ visited ⊆ visited'
           /\ all_sources `prefix_of` sources
       | Raise _ => True
       end.
Proof.
  revert all_sources visited runs.
  induction jurisdictions as [|j rest IH]; intros all_sources visited runs.
  - eexists. split; [reflexivity|]. simpl.
    split; [lia|]. split; [reflexivity|]. exists []. now rewrite app_nil_r.
  - cbn [crawl_each]. destruct (lookup_seeds seed_urls j) as [seeds|].
    + destruct (CrawlerFacts.discover_run_ends urlparse BeautifulSoup urljoin
                  md5_hexdigest now (session_get runs)
                  (playwright_content runs) seeds visited)
        as (r0 & Hr0 & Hend).
      rewrite Hr0. destruct r0 as [st|e]; [|now eexists].
      destruct Hend as ((_ & J2 & J3 & _ & found & _ & _ & _ & J8) & _).
      destruct (IH (all_sources ++ discovered_sources st) (crawled_urls st)
                  (S runs)) as (r & Hr & Hbound).
      exists r. split; [exact Hr|].
      destruct r as [[sources visited']|e]; [|exact I].
      destruct Hbound as (Hlen & Hsub & Hpre).
      rewrite length_app in Hlen. cbn [length].
      split; [unfold max_urls in *; lia|].
      split; [rewrite J8 in Hsub; set_solver|].
      destruct Hpre as [k ->]. exists (discovered_sources st ++ k).
      now rewrite app_assoc.
    + destruct (IH all_sources visited runs) as (r & Hr & Hbound).
      exists r. split; [exact Hr|].
      destruct r as [[sources visited']|e]; [|exact I].
      destruct Hbound as (Hlen & Hsub & Hpre). cbn [length].
      split; [unfold max_urls in *; lia|]. now split.
Qed.

(** X25: [crawl_legal_sources] always ends; when it ends without an
    exception it returns at most [max_urls + 9] sources for each
    jurisdiction asked for, and the set of visited addresses it leaves
    holds the one it found. *)
Theorem crawl_all_bound
    (jurisdictions : option (list str)) (visited : gset str) :
  exists r,
    crawl_legal_sources urlparse BeautifulSoup urljoin md5_hexdigest now
      session_get playwright_content jurisdictions visited = Some r
    /\ match r with
       | Ok (sources, visited') =>
           length sources
           <= (max_urls + 9)
              * length (default default_jurisdictions jurisdictions)
           /\ visited ⊆ visited'
       | Raise _ => True
       end.
Proof.
  unfold crawl_legal_sources.
  destruct (crawl_each_bound (default default_jurisdictions jurisdictions)
              [] visited 0) as (r & Hr & Hbound).
  exists r. split; [exact Hr|].
  destruct r as [[sources visited']|e]; [|exact I].
  destruct Hbound as (Hlen & Hsub & _). simpl in Hlen. now split.
Qed.

End World.

Lemma unknown_jurisdictions_skipped_witness :
  let down (run tick : nat) (address : str) : outcome HttpResponse :=
    Raise ConnectionError in
  let render (run tick : nat) (address : str) : outcome str :=
    Raise RenderTimeout in
  Forall (fun j => ~ In j default_jurisdictions) [("California, USA" : str)]
  /\ ai_crawl_legal_sources Demo.demo_urlparse Demo.demo_soup
       Demo.demo_urljoin Demo.demo_md5 0 down render
       (Some ("California, USA" : str)) = Some [].
Proof.
  intros down render.
  assert (H : Forall (fun j => ~ In j default_jurisdictions)
                [("California, USA" : str)]).
  { constructor; [|constructor].
    intros [H|[H|[H|[H|[]]]]]; discriminate H. }
  split; [exact H|].
  exact (proj2 (unknown_jurisdictions_skipped Demo.demo_urlparse
                  Demo.demo_soup Demo.demo_urljoin Demo.demo_md5 0 down
                  render [("California, USA" : str)] ∅ H)
           _ _ eq_refl).
Defined.

End CrawlAllFacts.
